(** * mp_api: the MPRester facade and the resource-client contract

    A shallow embedding of [src/mp_api/matproj.py] (the [MPRester] facade)
    and of the resource-client contract it relies on (chunked retrieval and
    lookup by identifier), followed by the properties proved about them.

    Layout: the definitions come first ([Effects], [ResourceClient],
    [Facade]), the theorems after them. *)

From stdpp Require Import base list strings pretty gmap sorting.
From Stdlib Require Import ZArith Ascii Sorting.Sorted.

Set Warnings "-register-all".

Local Open Scope string_scope.
Local Open Scope list_scope.
Local Open Scope nat_scope.

(** ** Effects: state passing with exceptions

    Python code raises exceptions and mutates objects; a computation is a
    function from the world before to an outcome and the world after. *)

Module Effects.

Definition M (W E A : Type) : Type := W -> (E + A) * W.

Definition ret {W E A} (a : A) : M W E A := fun w => (inr a, w).

Definition raise {W E A} (e : E) : M W E A := fun w => (inl e, w).

Definition bind {W E A B} (m : M W E A) (k : A -> M W E B) : M W E B :=
  fun w =>
    match m w with
    | (inl e, w') => (inl e, w')
    | (inr a, w') => k a w'
    end.

Definition modify {W E} (f : W -> W) : M W E unit := fun w => (inr tt, f w).

End Effects.

Import Effects.

Declare Scope py_scope.
Delimit Scope py_scope with py.
Notation "'do' x <- m ; k" := (bind m (fun x => k))
  (at level 10, x name, m at level 100, k at level 200,
   format "'[v' 'do'  x  <-  m ; '/' k ']'") : py_scope.
Notation "'run' m ; k" := (bind m (fun _ => k))
  (at level 10, m at level 100, k at level 200,
   format "'[v' 'run'  m ; '/' k ']'") : py_scope.
Local Open Scope py_scope.

(** ** The resource-client contract: chunked retrieval and lookup by id

    The resource clients ([mp_api.core.client] and [mp_api.routes]) are not
    among the sources at hand: the facade and the tests only call them. This
    module follows sections 3, 4.1, 4.2 and 7 of the specification. *)

Module ResourceClient.

(** Modelled from the spec: a field-to-constraint mapping (section 3). *)
Definition Filter := list (string * string).

(** Modelled from the spec: a schema-tagged record keyed by its identifier
    (section 3). *)
Record Document := mkDocument {
  identifier : string;
  payload : list (string * string)
}.

(** Modelled from the spec: the criteria of one request (section 3): the
    filter, possibly restricted to the identifiers of a chunk, the
    projection and the sort specification. *)
Record Query := mkQuery {
  q_filter : Filter;
  q_identifiers : option (list string);
  q_fields : option (list string);
  q_sort_field : option string;
  q_ascending : option bool
}.

(** Modelled from the spec: what a client asks of the transport. *)
Inductive Request :=
| Search (q : Query)
| GetById (id : string) (fields : option (list string)).

(** Modelled from the spec: the error taxonomy of section 7. *)
Inductive Error :=
| ValidationError
| NotFoundError
| AuthError
| ServerError
| TransientServerError
| ChunkRetrievalError (chunk : list string).

(** Modelled from the spec: what the transport answers (section 6): the
    parsed documents, a failure classified as transient (eligible for
    retry), or a terminal, categorized one. *)
Inductive Response :=
| OK (docs : list Document)
| Transient
| Terminal (e : Error).

(** Modelled from the spec: the transport, an external collaborator
    (section 6): a synchronous request capability over some server state. *)
Record Transport := mkTransport {
  server : Type;
  request : server -> Request -> Response * server
}.

(** Modelled from the spec: the world of a resource client, that is the
    server behind the transport and the requests sent so far, oldest
    first. *)
Record World (T : Transport) := mkWorld {
  backend : server T;
  sent : list Request
}.
Arguments mkWorld {T} _ _.
Arguments backend {T} _.
Arguments sent {T} _.

Definition Client (T : Transport) (A : Type) : Type := M (World T) Error A.

(** Modelled from the spec: one request through the transport, recorded in
    [sent]. *)
Definition send {T} (r : Request) : World T -> Response * World T :=
  fun w =>
    let (resp, s') := request T (backend w) r in
    (resp, mkWorld s' (sent w ++ [r])).

(** Modelled from the spec: a request that is not retried; a transient
    failure surfaces as such. *)
Definition send_once {T} (r : Request) : Client T (list Document) :=
  fun w =>
    match send r w with
    | (OK docs, w') => (inr docs, w')
    | (Transient, w') => (inl TransientServerError, w')
    | (Terminal e, w') => (inl e, w')
    end.

(** Modelled from the spec: the partition of step 3 of the Chunked Query
    Executor (the executor lives in [mp_api.core.client], which is not part
    of the sources at hand): consecutive chunks of [size] elements, the last
    one possibly smaller. *)
Fixpoint chunks_upto (fuel size : nat) (l : list string) : list (list string) :=
  match fuel with
  | 0 => []
  | S fuel' =>
      match l with
      | [] => []
      | _ :: _ => take size l :: chunks_upto fuel' size (drop size l)
      end
  end.

(** Modelled from the spec: the chunks of a whole identifier list; for a
    positive [size] the length of the list is fuel enough. *)
Definition get_chunks (size : nat) (l : list string) : list (list string) :=
  chunks_upto (length l) size l.

(** Modelled from the spec: the derived criteria of step 4, the criteria
    intersected with "identifier in chunk". *)
Definition restrict (q : Query) (chunk : list string) : Query :=
  mkQuery (q_filter q) (Some chunk) (q_fields q) (q_sort_field q) (q_ascending q).

(** Modelled from the spec: step 4 of the Chunked Query Executor for one
    chunk: the request is tried at most [tries] times; a transient failure
    leads to the next try, a terminal one fails at once, and when the tries
    are used up the fetch fails with the identifiers of the chunk. *)
Fixpoint fetch_chunk {T} (tries : nat) (q : Query) (chunk : list string)
  : Client T (list Document) :=
  match tries with
  | 0 => raise (ChunkRetrievalError chunk)
  | S tries' =>
      fun w =>
        match send (Search (restrict q chunk)) w with
        | (OK docs, w') => (inr docs, w')
        | (Transient, w') => fetch_chunk tries' q chunk w'
        | (Terminal e, w') => (inl e, w')
        end
  end.

(** Modelled from the spec: steps 4 and 5 of the Chunked Query Executor:
    the chunks are fetched one after the other and their results
    concatenated in chunk order; a failed chunk ends the whole fetch. *)
Fixpoint fetch_chunks {T} (tries : nat) (q : Query) (chunks : list (list string))
  : Client T (list Document) :=
  match chunks with
  | [] => ret []
  | chunk :: rest =>
      do docs <- fetch_chunk tries q chunk;
      do more <- fetch_chunks tries q rest;
      ret (docs ++ more)
  end.

(** Modelled from the spec: the lightweight request of step 2, for the
    identifier field only, with the sort specification of the search. *)
Definition identifier_field : list string := ["identifier"].

(** Modelled from the spec: the criteria of the request of step 2. *)
Definition identifier_query (criteria : Filter) (sort_field : option string)
    (ascending : option bool) : Query :=
  mkQuery criteria None (Some identifier_field) sort_field ascending.

(** Modelled from the spec: the request for the records themselves, with
    the projection asked for. *)
Definition full_query (criteria : Filter) (fields : option (list string))
    (sort_field : option string) (ascending : option bool) : Query :=
  mkQuery criteria None fields sort_field ascending.

(** Modelled from the spec: the chunks that are processed (step 3): all of
    them, or the first [num_chunks] when the cap is set. *)
Definition capped (num_chunks : option nat) (chunks : list (list string))
  : list (list string) :=
  match num_chunks with
  | Some k => take k chunks
  | None => chunks
  end.

(** Modelled from the spec: the [search] operation of a Resource Client,
    that is the Chunked Query Executor of section 4.2 ([mp_api.core.client]
    is not part of the sources at hand). [chunk_size = 0] is the opt-out
    path; otherwise the identifier list is fetched first, partitioned,
    capped by [num_chunks] when it is set, and fetched chunk by chunk. *)
Definition search {T} (criteria : Filter) (fields : option (list string))
    (sort_field : option string) (ascending : option bool)
    (num_chunks : option nat) (chunk_size : nat) (max_tries_per_chunk : nat)
  : Client T (list Document) :=
  let q := full_query criteria fields sort_field ascending in
  if chunk_size =? 0 then send_once (Search q)
  else
    do id_docs <- send_once (Search (identifier_query criteria sort_field ascending));
    let ids := map identifier id_docs in
    let chunks := capped num_chunks (get_chunks chunk_size ids) in
    fetch_chunks max_tries_per_chunk q chunks.

(** [n] requests [r] in a row, from server state [s] on, all fail
    transiently. *)
Fixpoint all_transient {T} (n : nat) (r : Request) (s : server T) : bool :=
  match n with
  | 0 => true
  | S n' =>
      match request T s r with
      | (Transient, s') => all_transient n' r s'
      | _ => false
      end
  end.

(** Modelled from the spec: [get_by_id] of a Resource Client
    ([mp_api.core.client] is not part of the sources at hand). The resource
    declares its identifier pattern; an empty or malformed identifier is
    refused before anything is sent, and an answer without a document is a
    [NotFoundError]. *)
Definition get_by_id {T} (pattern : string -> bool) (id : string)
    (fields : option (list string)) : Client T Document :=
  if bool_decide (id = "") || negb (pattern id) then raise ValidationError
  else
    do docs <- send_once (GetById id fields);
    match docs with
    | [] => raise NotFoundError
    | doc :: _ => ret doc
    end.

(** A server for experiments: it answers a chunk request with one bare
    document per identifier of the chunk, in the order of the chunk, and
    every other search with its stored documents. Its state is the stored
    documents. *)
Definition bare (id : string) : Document := mkDocument id [].

Definition echo_request (db : list Document) (r : Request)
  : Response * list Document :=
  match r with
  | Search q =>
      match q_identifiers q with
      | Some chunk => (OK (map bare chunk), db)
      | None => (OK db, db)
      end
  | GetById id _ =>
      (OK (filter (fun d => bool_decide (identifier d = id)) db), db)
  end.

Definition echo : Transport := mkTransport (list Document) echo_request.

(** A server that fails by a script: its state holds, for the chunk requests
    to come, whether each fails transiently ([true]) or is answered as by
    [echo]; when the script is used up every request is answered. *)
Definition flaky_request (st : list bool * list Document) (r : Request)
  : Response * (list bool * list Document) :=
  match r, st with
  | Search (mkQuery _ (Some _) _ _ _), (true :: script, db) =>
      (Transient, (script, db))
  | Search (mkQuery _ (Some _) _ _ _), (false :: script, db) =>
      let (resp, db') := echo_request db r in (resp, (script, db'))
  | _, (script, db) =>
      let (resp, db') := echo_request db r in (resp, (script, db'))
  end.

Definition flaky : Transport :=
  mkTransport (list bool * list Document) flaky_request.

(** A run of the server on one chunk: from state [s] on, the request of
    the chunk fails transiently [failures] times and is then answered with
    [docs], which leaves the server in state [s']. *)
Inductive answered {T} (q : Query) (chunk : list string)
  : server T -> nat -> list Document -> server T -> Prop :=
| answered_at_once s docs s' :
    request T s (Search (restrict q chunk)) = (OK docs, s') ->
    answered q chunk s 0 docs s'
| answered_after_failure s s1 failures docs s' :
    request T s (Search (restrict q chunk)) = (Transient, s1) ->
    answered q chunk s1 failures docs s' ->
    answered q chunk s (S failures) docs s'.

(** A run of the server on the chunks, one after the other: each chunk is
    answered after fewer than [tries] transient failures. The outcome of a
    chunk is the number of its failures and the documents of its answer. *)
Inductive served {T} (tries : nat) (q : Query)
  : server T -> list (list string) -> list (nat * list Document) -> server T -> Prop :=
| served_nil s : served tries q s [] [] s
| served_cons s chunk failures docs s1 chunks outcomes s' :
    answered q chunk s failures docs s1 ->
    failures < tries ->
    served tries q s1 chunks outcomes s' ->
    served tries q s (chunk :: chunks) ((failures, docs) :: outcomes) s'.

(** The requests such a run sees: every chunk in order, once more than it
    failed. *)
Definition requests_of (q : Query) (chunks : list (list string))
    (outcomes : list (nat * list Document)) : list Request :=
  concat (zip_with (fun chunk outcome =>
                      replicate (S outcome.1) (Search (restrict q chunk)))
                   chunks outcomes).

(** A server that holds documents: it answers a chunk request with the
    stored documents whose identifier is in the chunk, in the order in
    which it stores them, and knows nothing of other identifiers. *)
Definition store_request (db : list Document) (r : Request)
  : Response * list Document :=
  match r with
  | Search q =>
      match q_identifiers q with
      | Some chunk =>
          (OK (filter (fun d => identifier d ∈ chunk) db), db)
      | None => (OK db, db)
      end
  | GetById id _ =>
      (OK (filter (fun d => identifier d = id) db), db)
  end.

Definition store : Transport := mkTransport (list Document) store_request.

(** A [store] that fails by a script, as [flaky] does. *)
Definition flaky_store_request (st : list bool * list Document) (r : Request)
  : Response * (list bool * list Document) :=
  match r, st with
  | Search (mkQuery _ (Some _) _ _ _), (true :: script, db) =>
      (Transient, (script, db))
  | Search (mkQuery _ (Some _) _ _ _), (false :: script, db) =>
      let (resp, db') := store_request db r in (resp, (script, db'))
  | _, (script, db) =>
      let (resp, db') := store_request db r in (resp, (script, db'))
  end.

Definition flaky_store : Transport :=
  mkTransport (list bool * list Document) flaky_store_request.

End ResourceClient.

(** ** The facade: [MPRester] of [src/mp_api/matproj.py] *)

Module Facade.

(** The exceptions the facade raises itself, and [RestError] for whatever a
    rester or a library raises. *)
Inductive Exception :=
| NotImplementedError
| ValueError (msg : string)
| AttributeError (name : string)
| IndexError
| TypeError
| RestError (msg : string).

(** Python values, as far as the facade stores and passes them. Sessions and
    resters are references: a session by its number, a rester by its place
    in the store of rester instances. *)
Inductive Value :=
| VNone
| VBool (b : bool)
| VInt (z : Z)
| VStr (s : string)
| VList (items : list Value)
| VSession (id : nat)
| VRester (ref : nat)
| VMethod (ref : nat) (name : string).

(** A subclass of [BaseRester]: its endpoint suffix and the names of the
    methods it defines. *)
Record ResterClass := mkResterClass {
  suffix : string;
  methods : list string
}.

(** An instance of a rester class, with the arguments of its constructor. *)
Record Rester := mkRester {
  r_class : ResterClass;
  r_api_key : option string;
  r_endpoint : string;
  r_include_user_agent : bool;
  r_session : Value
}.

Record World := mkWorld {
  sessions : nat;          (* sessions created so far *)
  closed : list nat;       (* the calls of [session.close()], oldest first *)
  resters : list Rester;   (* the rester instances created so far *)
  warnings : list string   (* the warnings emitted, oldest first *)
}.

Definition Py (A : Type) : Type := M World Exception A.

(** The instance dictionary of an [MPRester] object. *)
Abbreviation MPRester := (gmap string Value).

Definition getattr (self : MPRester) (name : string) : Py Value :=
  match self !! name with
  | Some v => ret v
  | None => raise (AttributeError name)
  end.

(** [BaseRester._create_session]: a new session. *)
Definition _create_session (api_key : option string) (include_user_agent : bool)
  : Py Value :=
  fun w =>
    (inr (VSession (sessions w)),
     mkWorld (S (sessions w)) (closed w) (resters w) (warnings w)).

(** [session.close()] *)
Definition close (session : Value) : Py unit :=
  match session with
  | VSession id =>
      modify (fun w => mkWorld (sessions w) (closed w ++ [id]) (resters w) (warnings w))
  | _ => raise (AttributeError "close")
  end.

(** [warnings.warn(msg)] *)
Definition warn (msg : string) : Py unit :=
  modify (fun w => mkWorld (sessions w) (closed w) (resters w) (warnings w ++ [msg])).

(** [cls(api_key=..., endpoint=..., include_user_agent=..., session=...)]:
    a new instance in the store, returned by reference. *)
Definition new (cls : ResterClass) (api_key : option string) (endpoint : string)
    (include_user_agent : bool) (session : Value) : Py Value :=
  fun w =>
    (inr (VRester (length (resters w))),
     mkWorld (sessions w) (closed w)
       (resters w ++ [mkRester cls api_key endpoint include_user_agent session])
       (warnings w)).

(** [s.replace(old, new)] for one-character [old] and [new]. *)
Fixpoint replace (old new : ascii) (s : string) : string :=
  match s with
  | EmptyString => EmptyString
  | String c s' =>
      String (if bool_decide (c = old) then new else c) (replace old new s')
  end.

(** [cls.suffix.replace("/", "_")] *)
Definition attribute_name (cls : ResterClass) : string :=
  replace "/"%char "_"%char (suffix cls).

(** One turn of the loop of [__init__] over [BaseRester.__subclasses__()]. *)
Definition init_rester (api_key : option string) (endpoint : string)
    (include_user_agent : bool) (self : MPRester) (cls : ResterClass)
  : Py MPRester :=
  do session <- getattr self "session";
  do rester <- new cls api_key endpoint include_user_agent session;
  do all <- getattr self "_all_resters";
  do self <- match all with
             | VList items => ret (<["_all_resters" := VList (items ++ [rester])]> self)
             | _ => raise (AttributeError "append")
             end;
  ret (<[attribute_name cls := rester]> self).

Fixpoint init_resters (api_key : option string) (endpoint : string)
    (include_user_agent : bool) (self : MPRester) (subclasses : list ResterClass)
  : Py MPRester :=
  match subclasses with
  | [] => ret self
  | cls :: rest =>
      do self <- init_rester api_key endpoint include_user_agent self cls;
      init_resters api_key endpoint include_user_agent self rest
  end.

(** [self.<attr>.<method>]: the bound method of the rester held under
    [attr]. *)
Definition bound_method (self : MPRester) (attr method : string) : Py Value :=
  do holder <- getattr self attr;
  fun w =>
    match holder with
    | VRester ref =>
        match resters w !! ref with
        | Some r =>
            if bool_decide (method ∈ methods (r_class r))
            then (inr (VMethod ref method), w)
            else (inl (AttributeError method), w)
        | None => (inl (AttributeError method), w)
        end
    | _ => (inl (AttributeError method), w)
    end.

(** The convenience names bound at the end of [__init__]: the attribute
    set, the rester it is taken from, and the method of that rester. *)
Definition aliases : list (string * (string * string)) :=
  [ ("find_structure", ("materials", "find_structure"));
    ("get_bandstructure_by_material_id",
      ("electronic_structure_bandstructure", "get_bandstructure_from_material_id"));
    ("get_dos_by_material_id",
      ("electronic_structure_dos", "get_dos_from_material_id"));
    ("get_charge_density_from_calculation_id",
      ("charge_density", "get_charge_density_from_calculation_id"));
    ("get_charge_density_calculation_details",
      ("charge_density", "get_charge_density_calculation_details"));
    ("get_charge_density_calculation_ids_from_material_id",
      ("charge_density", "get_charge_density_calculation_ids_from_material_id")) ].

Fixpoint bind_aliases (self : MPRester) (l : list (string * (string * string)))
  : Py MPRester :=
  match l with
  | [] => ret self
  | (name, (attr, method)) :: rest =>
      do m <- bound_method self attr method;
      bind_aliases (<[name := m]> self) rest
  end.

(** The names [__init__] itself reads back or binds after the loop; a
    rester stored under one of them would be mistaken for the session or
    the list of resters, or be replaced by a convenience name. *)
Definition reserved : list string :=
  "session" :: "_all_resters" :: aliases.*1.

(** [subclasses] has the rester and the method an alias refers to. *)
Definition provides (subclasses : list ResterClass)
    (alias : string * (string * string)) : Prop :=
  exists cls : ResterClass,
    (cls ∈ subclasses) /\
    attribute_name cls = alias.2.1 /\
    (alias.2.2 ∈ methods cls).

Definition of_option (o : option string) : Value :=
  match o with
  | Some s => VStr s
  | None => VNone
  end.

(** [MPRester.__init__]; [subclasses] is [BaseRester.__subclasses__()]. *)
Definition __init__ (subclasses : list ResterClass) (api_key : option string)
    (endpoint : string) (notify_db_version include_user_agent : bool)
  : Py MPRester :=
  let self : MPRester := ∅ in
  let self := <["api_key" := of_option api_key]> self in
  let self := <["endpoint" := VStr endpoint]> self in
  do session <- _create_session api_key include_user_agent;
  let self := <["session" := session]> self in
  let self := <["_all_resters" := VList []]> self in
  do self <- init_resters api_key endpoint include_user_agent self subclasses;
  bind_aliases self aliases.

(** [MPRester.__enter__] *)
Definition __enter__ (self : MPRester) : Py MPRester := ret self.

(** [MPRester.__exit__]: closes the session and returns [None]. *)
Definition __exit__ (self : MPRester) (exc : option Exception) : Py Value :=
  do session <- getattr self "session";
  run close session;
  ret VNone.

Definition truthy (v : Value) : bool :=
  match v with
  | VNone => false
  | VBool b => b
  | VInt z => negb (z =? 0)%Z
  | VStr s => negb (bool_decide (s = ""))
  | VList items => negb (bool_decide (items = []))
  | _ => true
  end.

(** [with mgr as target: body]. The outcome is [Some] of what the body
    produced, or [None] when [__exit__] asked to swallow the exception of
    the body. *)
Definition with_ {A} (mgr : MPRester) (body : MPRester -> Py A) : Py (option A) :=
  do target <- __enter__ mgr;
  fun w =>
    match body target w with
    | (inr a, w1) => (run __exit__ mgr None; ret (Some a)) w1
    | (inl e, w1) =>
        (do swallow <- __exit__ mgr (Some e);
         if truthy swallow then ret None else raise e) w1
    end.

(** *** The convenience methods *)

(** The documents of the resters, with the fields the facade reads. *)
Record MaterialsDoc (MPID : Type) := mkMaterialsDoc {
  material_id : MPID
}.
Arguments mkMaterialsDoc {MPID} _.
Arguments material_id {MPID} _.

Record SurfaceEntry := mkSurfaceEntry {
  miller_index : list Z;
  is_reconstructed : bool
}.

Record SurfacePropDoc := mkSurfacePropDoc {
  pretty_formula : string;
  surfaces : list SurfaceEntry
}.

(** What the materials rester hands back as the structure(s) of a material:
    [None], one structure ([final=True]) or the list of the initial ones. *)
Inductive StructureData (Structure : Type) :=
| NoStructure
| OneStructure (s : Structure)
| Structures (l : list Structure).
Arguments NoStructure {Structure}.
Arguments OneStructure {Structure} _.
Arguments Structures {Structure} _.

(** The collaborators of the convenience methods: the types and functions
    of the libraries ([emmet]'s [MPID], [pymatgen]'s [Structure] and symmetry
    functions) and the methods of the resters the facade calls. *)
Record Collaborators := mkCollaborators {
  MPID : Type;
  mpid_lt : MPID -> MPID -> bool;        (* [MPID.__lt__] *)
  mpid_str : MPID -> string;             (* [str(mpid)] *)
  Structure : Type;
  num_sites : Structure -> nat;          (* [len(structure)] *)
  (* [SpacegroupAnalyzer(s).get_conventional_standard_structure()] *)
  get_conventional_standard_structure : Structure -> Py Structure;
  get_symmetrically_equivalent_miller_indices :
    StructureData Structure -> list Z -> Py (list (list Z));
  (* [self.materials.search(task_ids=..., fields=...)] *)
  materials_search : list string -> list string -> Py (list (MaterialsDoc MPID));
  (* [self.materials.search_material_docs(chemsys_formula=..., all_fields=...,
     fields=...)] *)
  materials_search_material_docs :
    string -> bool -> list string -> Py (list (MaterialsDoc MPID));
  (* [self.materials.get_structure_by_material_id(material_id=..., final=...)] *)
  materials_get_structure_by_material_id :
    string -> bool -> Py (StructureData Structure);
  (* [self.surface_properties.get_document_by_id(material_id)] *)
  surface_properties_get_document_by_id : string -> Py SurfacePropDoc
}.

Definition structure_truthy {C} (d : StructureData (Structure C)) : bool :=
  match d with
  | NoStructure => false
  | OneStructure s => negb (num_sites C s =? 0)
  | Structures l => negb (bool_decide (l = []))
  end.

(** The list comprehension of [get_structure_by_material_id]. *)
Fixpoint conventional_all {C} (l : list (Structure C)) : Py (list (Structure C)) :=
  match l with
  | [] => ret []
  | s :: rest =>
      do s' <- get_conventional_standard_structure C s;
      do rest' <- conventional_all rest;
      ret (s' :: rest')
  end.

(** What [SpacegroupAnalyzer(x)] raises when [x] is not a structure: its
    constructor reads [x.site_properties], which a list, a site or [None]
    does not have. *)
Definition not_a_structure : Exception := AttributeError "site_properties".

(** [MPRester.get_structure_by_material_id]. With
    [conventional_unit_cell] and truthy data, [final] decides whether the
    data itself or each of its elements is handed to [SpacegroupAnalyzer];
    data of the other shape is no structure there. *)
Definition get_structure_by_material_id {C} (material_id : string)
    (final conventional_unit_cell : bool) : Py (StructureData (Structure C)) :=
  do structure_data <- materials_get_structure_by_material_id C material_id final;
  if conventional_unit_cell && structure_truthy structure_data then
    if final then
      match structure_data with
      | OneStructure s =>
          do s' <- get_conventional_standard_structure C s;
          ret (OneStructure s')
      | _ => raise not_a_structure
      end
    else
      match structure_data with
      | Structures l =>
          do l' <- conventional_all l;
          ret (Structures l')
      | _ => raise not_a_structure
      end
  else ret structure_data.

(** [MPRester.get_materials_id_from_task_id] *)
Definition get_materials_id_from_task_id {C} (task_id : string)
  : Py (option string) :=
  do docs <- materials_search C [task_id] ["material_id"];
  if length docs =? 1 then
    match docs !! 0 with
    | Some doc => ret (Some (mpid_str C (material_id doc)))
    | None => raise IndexError
    end
  else if 1 <? length docs then
    raise (ValueError ("Multiple documents return for " +:+ task_id +:+
                       ", this should not happen, please report it!"))
  else
    run warn ("No material found containing task " +:+ task_id +:+
              ". Please report it if you suspect a task has gone missing.");
    ret None.

(** Python's [sorted]: a stable sort that compares with [<] only. An element
    is put in front of the first element of the sorted rest that is not
    smaller than it, so equal elements keep their order. *)
Fixpoint insert {A} (lt : A -> A -> bool) (x : A) (l : list A) : list A :=
  match l with
  | [] => [x]
  | y :: l' => if lt y x then y :: insert lt x l' else x :: y :: l'
  end.

Definition sorted {A} (lt : A -> A -> bool) (l : list A) : list A :=
  foldr (insert lt) [] l.

(** [MPRester.get_materials_ids] *)
Definition get_materials_ids {C} (chemsys_formula : string) : Py (list (MPID C)) :=
  do docs <- materials_search_material_docs C chemsys_formula false ["material_id"];
  ret (sorted (mpid_lt C) (map material_id docs)).

(** What [get_surface_data] returns besides [None]: the dict of one surface
    or the dict of the whole document. *)
Inductive SurfaceData :=
| SurfaceDict (surface : SurfaceEntry)
| DocDict (doc : SurfacePropDoc).

(** The loop of [get_surface_data]: the first surface whose miller index is
    among [eq_indices] is returned; without one the loop ends and the method
    returns nothing. *)
Fixpoint first_surface (eq_indices : list (list Z)) (l : list SurfaceEntry)
  : option SurfaceData :=
  match l with
  | [] => None
  | surface :: rest =>
      if bool_decide (miller_index surface ∈ eq_indices)
      then Some (SurfaceDict surface)
      else first_surface eq_indices rest
  end.

(** [MPRester.get_surface_data]. [if miller_index:] holds for a non-empty
    list; [None] and the empty list take the [else] branch. *)
Definition get_surface_data {C} (material_id : string)
    (miller_index : option (list Z)) : Py (option SurfaceData) :=
  do doc <- surface_properties_get_document_by_id C material_id;
  do structure <- get_structure_by_material_id (C:=C) material_id true false;
  match miller_index with
  | Some (h :: hkl) =>
      do eq_indices <- get_symmetrically_equivalent_miller_indices C structure
                         (h :: hkl);
      ret (first_surface eq_indices (surfaces doc))
  | _ => ret (Some (DocDict doc))
  end.

(** The order in which [sorted] leaves two elements: [a] may stand before
    [b] when [b < a] does not hold. *)
Definition before {A} (lt : A -> A -> bool) (a b : A) : Prop := lt b a = false.

(** The methods that are not implemented. *)
Definition get_materials_id_references (material_id : Value) : Py Value :=
  raise NotImplementedError.

Definition get_phonon_dos_by_material_id (material_id : Value) : Py Value :=
  raise NotImplementedError.

Definition query (criteria properties sort_field ascending num_chunks chunk_size
    all_fields fields : Value) : Py Value :=
  raise NotImplementedError.

Definition submit_structures (structures public_name public_email : Value)
  : Py Value :=
  raise NotImplementedError.

Definition get_stability (entries : Value) : Py Value :=
  raise NotImplementedError.

Definition get_cohesive_energy (material_id per_atom : Value) : Py Value :=
  raise NotImplementedError.

Definition get_reaction (reactants products : Value) : Py Value :=
  raise NotImplementedError.

Definition get_interface_reactions (reactant1 reactant2 open_el relative_mu
    use_hull_energy : Value) : Py Value :=
  raise NotImplementedError.

(** *** A small installation for experiments *)

(** A registry with the resters [__init__] refers to by name. *)
Definition registry : list ResterClass :=
  [ mkResterClass "materials"
      ["find_structure"; "search"; "search_material_docs";
       "get_structure_by_material_id"];
    mkResterClass "electronic_structure/bandstructure"
      ["get_bandstructure_from_material_id"];
    mkResterClass "electronic_structure/dos" ["get_dos_from_material_id"];
    mkResterClass "charge_density"
      ["get_charge_density_from_calculation_id";
       "get_charge_density_calculation_details";
       "get_charge_density_calculation_ids_from_material_id"];
    mkResterClass "surface_properties" ["get_document_by_id"] ].

Definition silicon : SurfacePropDoc :=
  mkSurfacePropDoc "Si"
    [mkSurfaceEntry [1; 1; 1]%Z false; mkSurfaceEntry [1; 0; 0]%Z true].

(** Collaborators over a tiny database: identifiers are numbers, task
    [mp-149] belongs to material 149, task [mp-2] is claimed by two
    materials, and the only surface document is that of [mp-149]. *)
Definition lab : Collaborators :=
  mkCollaborators
    nat Nat.ltb (fun n => "mp-" +:+ pretty n)
    unit (fun _ => 2)
    (fun s => ret s)
    (fun _ hkl => ret [hkl; map Z.opp hkl])
    (fun task_ids _ =>
       if bool_decide (task_ids = ["mp-149"]) then ret [mkMaterialsDoc 149]
       else if bool_decide (task_ids = ["mp-2"])
            then ret [mkMaterialsDoc 2; mkMaterialsDoc 7]
            else ret [])
    (fun chemsys_formula _ _ =>
       if bool_decide (chemsys_formula = "Si")
       then ret [mkMaterialsDoc 1014; mkMaterialsDoc 149; mkMaterialsDoc 165]
       else ret [])
    (fun _ final => ret (if final then OneStructure tt else Structures [tt]))
    (fun material_id =>
       if bool_decide (material_id = "mp-149")
       then ret silicon
       else raise (RestError "No result for record")).

Definition fresh : World := mkWorld 0 [] [] [].

(** *** The task types *)

(** [TaskType], an [Enum] checked by [@unique]. *)
Inductive TaskType :=
| GGA_OPT
| GGAU_OPT
| SCAN_OPT
| GGA_LINE
| GGAU_LINE
| GGA_UNIFORM
| GGAU_UNIFORM
| GGA_STATIC
| GGAU_STATIC
| GGA_STATIC_DIEL
| GGAU_STATIC_DIEL
| GGA_DEF
| GGAU_DEF
| LDA_STATIC_DIEL.

(** [member.value] *)
Definition task_type_value (t : TaskType) : string :=
  match t with
  | GGA_OPT => "GGA Structure Optimization"
  | GGAU_OPT => "GGA+U Structure Optimization"
  | SCAN_OPT => "SCAN Structure Optimization"
  | GGA_LINE => "GGA NSCF Line"
  | GGAU_LINE => "GGA+U NSCF Line"
  | GGA_UNIFORM => "GGA NSCF Uniform"
  | GGAU_UNIFORM => "GGA+U NSCF Uniform"
  | GGA_STATIC => "GGA Static"
  | GGAU_STATIC => "GGA+U Static"
  | GGA_STATIC_DIEL => "GGA Static Dielectric"
  | GGAU_STATIC_DIEL => "GGA+U Static Dielectric"
  | GGA_DEF => "GGA Deformation"
  | GGAU_DEF => "GGA+U Deformation"
  | LDA_STATIC_DIEL => "LDA Static Dielectric"
  end.

(** The members in the order of their definition ([list(TaskType)]). *)
Definition task_types : list TaskType :=
  [GGA_OPT; GGAU_OPT; SCAN_OPT; GGA_LINE; GGAU_LINE; GGA_UNIFORM; GGAU_UNIFORM;
   GGA_STATIC; GGAU_STATIC; GGA_STATIC_DIEL; GGAU_STATIC_DIEL; GGA_DEF; GGAU_DEF;
   LDA_STATIC_DIEL].

(** [repr(s)] of a string: in single quotes, or in double quotes when the
    string has a single quote and no double quote; backslashes, the quote
    in use and control characters are escaped. Characters beyond ASCII are
    taken to be printable. *)
Definition hex_digit (n : nat) : ascii :=
  match n with
  | 0 => "0" | 1 => "1" | 2 => "2" | 3 => "3" | 4 => "4" | 5 => "5"
  | 6 => "6" | 7 => "7" | 8 => "8" | 9 => "9" | 10 => "a" | 11 => "b"
  | 12 => "c" | 13 => "d" | 14 => "e" | _ => "f"
  end%char.

Definition backslash : ascii := ascii_of_nat 92.
Definition double_quote : ascii := ascii_of_nat 34.
Definition single_quote : ascii := ascii_of_nat 39.

Definition escaped (c : ascii) : string :=
  String backslash (String c EmptyString).

Definition repr_char (quote c : ascii) : string :=
  let n := nat_of_ascii c in
  if bool_decide (c = backslash) then escaped backslash
  else if bool_decide (c = quote) then escaped c
  else if n =? 10 then escaped "n"
  else if n =? 13 then escaped "r"
  else if n =? 9 then escaped "t"
  else if (n <? 32) || (n =? 127)
       then String backslash
              (String "x"%char
                 (String (hex_digit (n / 16))
                    (String (hex_digit (n mod 16)) EmptyString)))
       else String c EmptyString.

Fixpoint repr_chars (quote : ascii) (s : string) : string :=
  match s with
  | EmptyString => EmptyString
  | String c s' => repr_char quote c +:+ repr_chars quote s'
  end.

Fixpoint has_char (c : ascii) (s : string) : bool :=
  match s with
  | EmptyString => false
  | String c' s' => bool_decide (c' = c) || has_char c s'
  end.

Definition repr (s : string) : string :=
  let quote := if has_char single_quote s && negb (has_char double_quote s)
               then double_quote else single_quote in
  String quote (repr_chars quote s +:+ String quote EmptyString).

(** [TaskType(value)]: the member with that value; without one the call
    raises [ValueError] with the [repr] of the value. *)
Definition task_type_of_value (v : string) : Exception + TaskType :=
  match list_find (fun t => task_type_value t = v) task_types with
  | Some (_, t) => inr t
  | None => inl (ValueError (repr v +:+ " is not a valid TaskType"))
  end.

(** *** Structures, entries and Wulff shapes *)

(** The documents the materials rester returns when asked for structures. *)
Record StructureDoc (Structure : Type) := mkStructureDoc {
  structure : Structure;
  initial_structures : list Structure
}.
Arguments mkStructureDoc {Structure} _ _.
Arguments structure {Structure} _.
Arguments initial_structures {Structure} _.

(** The documents of the thermo rester: [entries] is a dict, kept in the
    order of its keys. *)
Record ThermoDoc (Entry : Type) := mkThermoDoc {
  entries : list (string * Entry)
}.
Arguments mkThermoDoc {Entry} _.
Arguments entries {Entry} _.

(** More collaborators, for the methods below. *)
Record MoreCollaborators (C : Collaborators) := mkMoreCollaborators {
  Entry : Type;       (* [ComputedEntry] or [ComputedStructureEntry] *)
  Energy : Type;      (* a surface energy; the facade only passes it on *)
  Lattice : Type;
  Wulff : Type;       (* [pymatgen.analysis.wulff.WulffShape] *)
  (* [self.materials.search_material_docs(chemsys_formula=...,
     all_fields=..., fields=...)] when structures are asked for *)
  materials_search_structure_docs :
    string -> bool -> list string -> Py (list (StructureDoc (Structure C)));
  (* [self.thermo.search_thermo_docs(chemsys_formula=..., all_fields=...,
     fields=..., sort_field=..., ascending=...)] *)
  thermo_search_thermo_docs :
    string -> bool -> list string -> option string -> option bool ->
    Py (list (ThermoDoc Entry));
  (* [self.thermo.get_document_by_id(document_id=..., fields=...)] *)
  thermo_get_document_by_id : string -> list string -> Py (ThermoDoc Entry);
  (* the [surface_energy] of the surfaces of a document, in their order *)
  surface_energies : SurfacePropDoc -> list Energy;
  (* [structure.lattice] *)
  lattice : Structure C -> Lattice;
  (* [WulffShape(lattice, millers, energies)] *)
  WulffShape : Lattice -> list (list Z) -> list Energy -> Py Wulff
}.
Arguments Entry {C} _.
Arguments Energy {C} _.
Arguments Lattice {C} _.
Arguments Wulff {C} _.
Arguments materials_search_structure_docs {C} _ _ _ _.
Arguments thermo_search_thermo_docs {C} _ _ _ _ _ _.
Arguments thermo_get_document_by_id {C} _ _ _.
Arguments surface_energies {C} _ _.
Arguments lattice {C} _ _.
Arguments WulffShape {C} _ _ _ _.

(** [MPRester.get_structures]. Without [final] the initial structures of
    the documents are collected by [structures.extend(...)]. *)
Definition get_structures {C} (X : MoreCollaborators C) (chemsys_formula : string)
    (final : bool) : Py (list (Structure C)) :=
  if final then
    do docs <- materials_search_structure_docs X chemsys_formula false ["structure"];
    ret (map structure docs)
  else
    do docs <- materials_search_structure_docs X chemsys_formula false
                 ["initial_structures"];
    ret (foldl (fun structures doc => structures ++ initial_structures doc) [] docs).

(** [list(doc.entries.values())] *)
Definition values {V} (d : list (string * V)) : list V := d.*2.

(** [MPRester.get_entries] *)
Definition get_entries {C} (X : MoreCollaborators C) (chemsys_formula : string)
    (sort_by_e_above_hull : bool) : Py (list (Entry X)) :=
  if sort_by_e_above_hull then
    do docs <- thermo_search_thermo_docs X chemsys_formula false ["entries"]
                 (Some "energy_above_hull") (Some true);
    ret (foldl (fun acc doc => acc ++ values (entries doc)) [] docs)
  else
    do docs <- thermo_search_thermo_docs X chemsys_formula false ["entries"]
                 None None;
    ret (foldl (fun acc doc => acc ++ values (entries doc)) [] docs).

(** [MPRester.get_entry_by_material_id] *)
Definition get_entry_by_material_id {C} (X : MoreCollaborators C)
    (material_id : string) : Py (list (Entry X)) :=
  do doc <- thermo_get_document_by_id X material_id ["entries"];
  ret (values (entries doc)).

(** A dict keyed by miller indices, in insertion order: [key in d] and
    [d[key] = v], which keeps the place of a key that is already there. *)
Definition contains {V} (d : list (list Z * V)) (key : list Z) : bool :=
  bool_decide (key ∈ d.*1).

Fixpoint setitem {V} (d : list (list Z * V)) (key : list Z) (v : V)
  : list (list Z * V) :=
  match d with
  | [] => [(key, v)]
  | (key', v') :: d' =>
      if bool_decide (key' = key) then (key, v) :: d'
      else (key', v') :: setitem d' key v
  end.

(** The loop of [get_wulff_shape] over the surfaces, each with its energy:
    a surface sets the energy of its miller index when the index is new or
    the surface is reconstructed. *)
Definition miller_energy_map {E} (surfaces : list (SurfaceEntry * E))
  : list (list Z * E) :=
  foldl (fun map surf =>
           let miller := miller_index surf.1 in
           if negb (contains map miller) || is_reconstructed surf.1
           then setitem map miller surf.2
           else map)
        [] surfaces.

(** [MPRester.get_wulff_shape]. The items of the dict are unzipped into
    [millers, energies]; an empty dict yields nothing to unpack. *)
Definition get_wulff_shape {C} (X : MoreCollaborators C) (material_id : string)
  : Py (Wulff X) :=
  do structure <- get_structure_by_material_id (C:=C) material_id true false;
  do data <- get_surface_data (C:=C) material_id None;
  do surfaces <- match data with
                 | Some (DocDict doc) =>
                     ret (zip (surfaces doc) (surface_energies X doc))
                 | Some (SurfaceDict _) => raise (RestError "KeyError: surfaces")
                 | None => raise TypeError
                 end;
  do lattice <- match structure with
                | OneStructure s =>
                    do s' <- get_conventional_standard_structure C s;
                    ret (lattice X s')
                | _ => raise not_a_structure
                end;
  let map := miller_energy_map surfaces in
  match map with
  | [] => raise (ValueError "not enough values to unpack (expected 2, got 0)")
  | _ :: _ => WulffShape X lattice map.*1 map.*2
  end.

(** More of the small installation: energies are numbers, a lattice is
    unnamed and a Wulff shape is what it was built from. *)
Definition more_lab : MoreCollaborators lab :=
  mkMoreCollaborators lab
    nat nat unit (list (list Z) * list nat)
    (fun chemsys_formula _ _ =>
       if bool_decide (chemsys_formula = "Si")
       then ret [mkStructureDoc tt [tt; tt]; mkStructureDoc tt []; mkStructureDoc tt [tt]]
       else ret [])
    (fun chemsys_formula _ _ _ _ =>
       if bool_decide (chemsys_formula = "Si")
       then ret [mkThermoDoc [("GGA", 1); ("GGA+U", 2)]; mkThermoDoc [("GGA", 3)]]
       else ret [])
    (fun material_id _ =>
       if bool_decide (material_id = "mp-149")
       then ret (mkThermoDoc [("GGA", 1); ("GGA+U", 2)])
       else raise (RestError "No result for record"))
    (fun doc => [5; 3])
    (fun _ => tt)
    (fun _ millers energies => ret (millers, energies)).

(** Collaborators whose server lists the materials of ["Si"] in one order
    and those of ["Si (reversed)"] in the opposite one, and which has lost
    the structures. *)
Definition lab2 : Collaborators :=
  mkCollaborators
    nat Nat.ltb (mpid_str lab)
    unit (num_sites lab)
    (get_conventional_standard_structure lab)
    (get_symmetrically_equivalent_miller_indices lab)
    (materials_search lab)
    (fun chemsys_formula all_fields fields =>
       if bool_decide (chemsys_formula = "Si (reversed)")
       then ret [mkMaterialsDoc 165; mkMaterialsDoc 149; mkMaterialsDoc 1014]
       else materials_search_material_docs lab chemsys_formula all_fields fields)
    (fun _ _ => raise (RestError "No result for record"))
    (surface_properties_get_document_by_id lab).

(** Collaborators whose surface documents have no surfaces. *)
Definition lab3 : Collaborators :=
  mkCollaborators
    nat Nat.ltb (mpid_str lab)
    unit (num_sites lab)
    (get_conventional_standard_structure lab)
    (get_symmetrically_equivalent_miller_indices lab)
    (materials_search lab)
    (materials_search_material_docs lab)
    (materials_get_structure_by_material_id lab)
    (fun _ => ret (mkSurfacePropDoc "Xe" [])).

Definition more_lab3 : MoreCollaborators lab3 :=
  mkMoreCollaborators lab3
    nat nat unit (list (list Z) * list nat)
    (fun _ _ _ => ret [])
    (fun _ _ _ _ _ => ret [])
    (fun _ _ => raise (RestError "No result for record"))
    (fun doc => [])
    (fun _ => tt)
    (fun _ millers energies => ret (millers, energies)).

(** A run of the symmetry analysis over structures, one after the other:
    from world [w] on, each structure of [l] gets its conventional standard
    structure, which gives [l'] and leaves the world [w']. *)
Inductive converted {C : Collaborators}
  : list (Structure C) -> World -> list (Structure C) -> World -> Prop :=
| converted_nil w : converted [] w [] w
| converted_cons s l w s' w1 l' w' :
    get_conventional_standard_structure C s w = (inr s', w1) ->
    converted l w1 l' w' ->
    converted (s :: l) w (s' :: l') w'.

(** Collaborators whose materials have no structure and whose symmetry
    analysis fails whenever it is called. *)
Definition lab4 : Collaborators :=
  mkCollaborators
    nat Nat.ltb (mpid_str lab)
    unit (num_sites lab)
    (fun _ => raise (RestError "symmetry analysis failed"))
    (get_symmetrically_equivalent_miller_indices lab)
    (materials_search lab)
    (materials_search_material_docs lab)
    (fun _ final => ret (if final then NoStructure else Structures []))
    (surface_properties_get_document_by_id lab).

End Facade.

(** * Properties *)

(** ** The resource-client contract *)

Module ResourceClientFacts.
Import ResourceClient.

(** *** The partition into chunks *)

Lemma chunks_upto_concat fuel size l :
  0 < size -> length l <= fuel -> concat (chunks_upto fuel size l) = l.
Proof.
  revert l. induction fuel as [|fuel IH]; intros l Hsize Hfuel.
  - destruct l; [done | simpl in Hfuel; lia].
  - destruct l as [|x l]; [done |].
    cbn [chunks_upto concat]. rewrite IH.
    + apply take_drop.
    + done.
    + rewrite length_drop. simpl in Hfuel. simpl. lia.
Qed.

Lemma chunks_upto_lookup fuel size l i :
  0 < size -> length l <= fuel ->
  chunks_upto fuel size l !! i =
    if decide (i * size < length l)
    then Some (take size (drop (i * size) l)) else None.
Proof.
  revert l i. induction fuel as [|fuel IH]; intros l i Hsize Hfuel.
  - destruct l; [| simpl in Hfuel; lia].
    cbn [chunks_upto]. rewrite lookup_nil.
    destruct (decide _) as [Hlt|]; [simpl in Hlt; lia | done].
  - destruct l as [|x l].
    { cbn [chunks_upto]. rewrite lookup_nil.
      destruct (decide _) as [Hlt|]; [simpl in Hlt; lia | done]. }
    cbn [chunks_upto]. destruct i as [|i].
    + cbn [lookup list_lookup]. rewrite drop_0.
      destruct (decide _) as [|Hge]; [done | simpl in Hge; lia].
    + change ((take size (x :: l) :: chunks_upto fuel size (drop size (x :: l))) !! S i)
        with (chunks_upto fuel size (drop size (x :: l)) !! i).
      rewrite IH; [| done | rewrite length_drop; simpl in Hfuel; simpl; lia].
      rewrite length_drop, drop_drop.
      replace (size + i * size) with (S i * size) by lia.
      destruct (decide (i * size < _)), (decide (S i * size < _)); try done; lia.
Qed.

Lemma get_chunks_concat size l : 0 < size -> concat (get_chunks size l) = l.
Proof. intros. by apply chunks_upto_concat. Qed.

Lemma get_chunks_lookup size l i :
  0 < size ->
  get_chunks size l !! i =
    if decide (i * size < length l)
    then Some (take size (drop (i * size) l)) else None.
Proof. intros. by apply chunks_upto_lookup. Qed.

(** Every chunk is non-empty and has at most [size] elements; a chunk that
    is not the last one has exactly [size]. *)
Lemma get_chunks_sizes size l i chunk :
  0 < size -> get_chunks size l !! i = Some chunk ->
  0 < length chunk <= size /\
  (S i < length (get_chunks size l) -> length chunk = size).
Proof.
  intros Hsize Hi. rewrite get_chunks_lookup in Hi by done.
  case_decide as Hlt; [| done]. injection Hi as <-.
  rewrite length_take, length_drop. split; [lia |].
  intros Hnext. apply lookup_lt_is_Some in Hnext as [next Hnext].
  rewrite get_chunks_lookup in Hnext by done.
  case_decide; [lia | done].
Qed.

Lemma get_chunks_2500 l :
  length l = 2500 -> map length (get_chunks 1000 l) = [1000; 1000; 500].
Proof.
  intros Hl. apply list_eq. intros i.
  rewrite list_lookup_fmap, get_chunks_lookup by lia.
  destruct i as [|[|[|i]]]; case_decide; try lia; simpl;
    try (f_equal; rewrite length_take, length_drop; lia).
Qed.

Lemma chunks_upto_take fuel size l k :
  0 < size -> length l <= fuel ->
  concat (take k (chunks_upto fuel size l)) = take (k * size) l.
Proof.
  revert l k. induction fuel as [|fuel IH]; intros l k Hsize Hfuel.
  - destruct l; [| simpl in Hfuel; lia].
    cbn [chunks_upto]. by rewrite !take_nil.
  - destruct l as [|x l]; [cbn [chunks_upto]; by rewrite !take_nil |].
    cbn [chunks_upto]. destruct k as [|k]; [done |].
    change (concat (take (S k) (?c :: ?cs))) with (c ++ concat (take k cs)).
    rewrite IH; [| done | rewrite length_drop; simpl in Hfuel; simpl; lia].
    by rewrite take_take_drop.
Qed.

Lemma get_chunks_take size l k :
  0 < size -> concat (take k (get_chunks size l)) = take (k * size) l.
Proof. intros. by apply chunks_upto_take. Qed.

(** *** Fetching the chunks *)

Section Fetching.
Context {T : Transport}.
Implicit Types (q : Query) (w : World T) (chunk : list string).

Lemma fetch_chunk_first_try tries q chunk w docs s' :
  request T (backend w) (Search (restrict q chunk)) = (OK docs, s') ->
  fetch_chunk (S tries) q chunk w =
    (inr docs, mkWorld s' (sent w ++ [Search (restrict q chunk)])).
Proof. intros Hreq. cbn [fetch_chunk]. unfold send. by rewrite Hreq. Qed.

Lemma fetch_chunk_exhausted tries q chunk w :
  all_transient tries (Search (restrict q chunk)) (backend w) = true ->
  exists w',
    fetch_chunk tries q chunk w = (inl (ChunkRetrievalError chunk), w') /\
    sent w' = sent w ++ replicate tries (Search (restrict q chunk)).
Proof.
  revert w. induction tries as [|tries IH]; intros w Hfail.
  - exists w. split; [done |]. cbn [replicate]. by rewrite app_nil_r.
  - cbn [all_transient] in Hfail. cbn [fetch_chunk]. unfold send.
    destruct (request T (backend w) (Search (restrict q chunk))) as [[docs | | e] s'];
      try discriminate.
    destruct (IH (mkWorld s' (sent w ++ [Search (restrict q chunk)])) Hfail)
      as (w' & Hrun & Hsent).
    exists w'. split; [done |]. rewrite Hsent. cbn [sent replicate].
    by rewrite <- app_assoc.
Qed.

(** After [n] transient failures an answer at the next try is the result
    of the fetch, as long as the tries are not used up. *)
Lemma fetch_chunk_retries n tries q chunk w :
  n < tries ->
  all_transient n (Search (restrict q chunk)) (backend w) = true ->
  exists w1,
    sent w1 = sent w ++ replicate n (Search (restrict q chunk)) /\
    forall docs s',
      request T (backend w1) (Search (restrict q chunk)) = (OK docs, s') ->
      fetch_chunk tries q chunk w =
        (inr docs, mkWorld s' (sent w1 ++ [Search (restrict q chunk)])).
Proof.
  revert tries w. induction n as [|n IH]; intros tries w Hlt Hfail.
  - exists w. split; [cbn [replicate]; by rewrite app_nil_r |].
    intros docs s' Hreq. destruct tries as [|tries]; [lia |].
    by apply fetch_chunk_first_try.
  - destruct tries as [|tries]; [lia |].
    cbn [all_transient] in Hfail. cbn [fetch_chunk]. unfold send.
    destruct (request T (backend w) (Search (restrict q chunk))) as [[docs | | e] s1];
      try discriminate.
    destruct (IH tries (mkWorld s1 (sent w ++ [Search (restrict q chunk)])))
      as (w1 & Hsent & Hrun); [lia | done |].
    exists w1. split; [| done].
    rewrite Hsent. cbn [sent replicate]. by rewrite <- app_assoc.
Qed.

Lemma fetch_chunks_app tries q pre rest w :
  fetch_chunks tries q (pre ++ rest) w =
    match fetch_chunks tries q pre w with
    | (inl e, w1) => (inl e, w1)
    | (inr docs, w1) =>
        match fetch_chunks tries q rest w1 with
        | (inl e, w2) => (inl e, w2)
        | (inr more, w2) => (inr (docs ++ more), w2)
        end
    end.
Proof.
  revert w. induction pre as [|chunk pre IH]; intros w.
  - cbn. by destruct (fetch_chunks tries q rest w) as [[e | more] w2].
  - cbn [app fetch_chunks]. unfold bind.
    destruct (fetch_chunk tries q chunk w) as [[e | docs] w1]; [done |].
    rewrite IH.
    destruct (fetch_chunks tries q pre w1) as [[e | more] w2]; [done |].
    unfold ret.
    destruct (fetch_chunks tries q rest w2) as [[e | last] w3]; [done |].
    by rewrite app_assoc.
Qed.

(** A chunk the server answers after fewer failures than there are tries
    is fetched: its documents are those of the answer, and it was requested
    once more than it failed. *)
Lemma fetch_chunk_answered tries q chunk (s : server T) failures docs s' log :
  answered q chunk s failures docs s' ->
  failures < tries ->
  fetch_chunk tries q chunk (mkWorld s log) =
    (inr docs,
     mkWorld s' (log ++ replicate (S failures) (Search (restrict q chunk)))).
Proof.
  intros Hrun. revert tries log.
  induction Hrun as [s docs s' Hreq | s s1 failures docs s' Hreq _ IH];
    intros tries log Htries.
  - destruct tries as [|tries]; [lia |].
    cbn [fetch_chunk]. unfold send. cbn [backend sent]. by rewrite Hreq.
  - destruct tries as [|tries]; [lia |].
    cbn [fetch_chunk]. unfold send. cbn [backend sent]. rewrite Hreq.
    rewrite IH by lia. cbn [replicate]. by rewrite <- app_assoc.
Qed.

(** The chunks of a served run are fetched in order and their documents
    concatenated. *)
Lemma fetch_chunks_served tries q (s : server T) chunks outcomes s' log :
  served tries q s chunks outcomes s' ->
  fetch_chunks tries q chunks (mkWorld s log) =
    (inr (concat outcomes.*2),
     mkWorld s' (log ++ requests_of q chunks outcomes)).
Proof.
  intros Hrun. revert log.
  induction Hrun as [s | s chunk failures docs s1 chunks outcomes s' Hchunk Htries _ IH];
    intros log.
  - cbn. by rewrite app_nil_r.
  - cbn [fetch_chunks]. unfold bind.
    rewrite (fetch_chunk_answered _ _ _ _ _ _ _ _ Hchunk Htries), IH.
    unfold ret, requests_of. cbn [fmap list_fmap snd concat zip_with fst].
    by rewrite <- app_assoc.
Qed.

Lemma search_chunked criteria fields sort_field ascending num_chunks
    chunk_size tries w id_docs s1 :
  chunk_size <> 0 ->
  request T (backend w) (Search (identifier_query criteria sort_field ascending))
    = (OK id_docs, s1) ->
  search criteria fields sort_field ascending num_chunks chunk_size tries w =
    fetch_chunks tries (full_query criteria fields sort_field ascending)
      (capped num_chunks (get_chunks chunk_size (map identifier id_docs)))
      (mkWorld s1
         (sent w ++ [Search (identifier_query criteria sort_field ascending)])).
Proof.
  intros Hsize Hreq. unfold search.
  destruct (Nat.eqb_spec chunk_size 0) as [| _]; [done |].
  unfold bind, send_once, send. by rewrite Hreq.
Qed.

End Fetching.

(** *** The chunked search *)

(** C1. When the identifier list of the criteria has [N] elements and the
    chunk size is positive, the executor splits the list into consecutive
    chunks of [chunk_size] identifiers, only the last of which may be
    smaller. In a run in which the server answers each of these chunks,
    after fewer transient failures than there are tries, with as many
    documents as the chunk has identifiers, the executor requests the
    chunks in order and returns the documents of all the answers, [N] in
    all. For 2500 identifiers and a chunk size of 1000 the chunks have the
    sizes 1000, 1000 and 500. *)
Theorem search_fetches_all_chunks_in_order (T : Transport)
    criteria fields sort_field ascending chunk_size tries
    (w : World T) id_docs s1 outcomes s2 :
  let ids := map identifier id_docs in
  let chunks := get_chunks chunk_size ids in
  let q := full_query criteria fields sort_field ascending in
  0 < chunk_size ->
  request T (backend w) (Search (identifier_query criteria sort_field ascending))
    = (OK id_docs, s1) ->
  served tries q s1 chunks outcomes s2 ->
  Forall2 (fun chunk outcome => length outcome.2 = length chunk) chunks outcomes ->
  concat chunks = ids /\
  (forall i chunk, chunks !! i = Some chunk ->
     0 < length chunk <= chunk_size /\
     (S i < length chunks -> length chunk = chunk_size)) /\
  search criteria fields sort_field ascending None chunk_size tries w
    = (inr (concat outcomes.*2),
       mkWorld s2
         (sent w ++
          Search (identifier_query criteria sort_field ascending) ::
          requests_of q chunks outcomes)) /\
  length (concat outcomes.*2) = length ids /\
  (length ids = 2500 -> chunk_size = 1000 ->
   map length chunks = [1000; 1000; 500]).
Proof.
  intros ids chunks q Hsize Hids Hrun Hanswers.
  assert (chunk_size <> 0) as Hne by lia.
  split; [by apply get_chunks_concat |].
  split; [intros i chunk; by apply get_chunks_sizes |].
  split; [| split].
  - rewrite (search_chunked _ _ _ _ _ _ _ _ _ _ Hne Hids). cbn [capped].
    fold ids chunks q. rewrite (fetch_chunks_served _ _ _ _ _ _ _ Hrun).
    by rewrite <- app_assoc.
  - rewrite <- (get_chunks_concat chunk_size ids) by done.
    fold chunks. clear -Hanswers.
    induction Hanswers as [|chunk [failures docs] ? ? Hlen _ IH]; [done |].
    cbn [fmap list_fmap snd concat] in *. rewrite !length_app.
    by rewrite Hlen, IH.
  - intros HN ->. by apply get_chunks_2500.
Qed.

Lemma search_fetches_all_chunks_in_order_witness :
  let db := map bare ["mp-1"; "mp-2"; "mp-3"] in
  let w : World flaky_store := mkWorld (T:=flaky_store) ([true; false; true], db) [] in
  let ids := ["mp-1"; "mp-2"; "mp-3"] in
  let chunks := get_chunks 2 ids in
  let q := full_query [] None None None in
  let outcomes := [(1, map bare ["mp-1"; "mp-2"]); (1, map bare ["mp-3"])] in
  concat chunks = ids /\
  (forall i chunk, chunks !! i = Some chunk ->
     0 < length chunk <= 2 /\ (S i < length chunks -> length chunk = 2)) /\
  search [] None None None None 2 3 w
    = (inr (concat outcomes.*2),
       mkWorld (T:=flaky_store) ([], db)
         (sent w ++
          Search (identifier_query [] None None) ::
          requests_of q chunks outcomes)) /\
  length (concat outcomes.*2) = length ids /\
  (length ids = 2500 -> 2 = 1000 -> map length chunks = [1000; 1000; 500]).
Proof.
  apply (search_fetches_all_chunks_in_order flaky_store [] None None None 2 3
           (mkWorld (T:=flaky_store)
              ([true; false; true], map bare ["mp-1"; "mp-2"; "mp-3"]) [])
           (map bare ["mp-1"; "mp-2"; "mp-3"])
           ([true; false; true], map bare ["mp-1"; "mp-2"; "mp-3"])
           [(1, map bare ["mp-1"; "mp-2"]); (1, map bare ["mp-3"])]
           ([], map bare ["mp-1"; "mp-2"; "mp-3"])).
  - lia.
  - reflexivity.
  - eapply served_cons; [| lia |].
    + eapply answered_after_failure; [reflexivity |].
      apply answered_at_once. reflexivity.
    + eapply served_cons; [| lia | apply served_nil].
      eapply answered_after_failure; [reflexivity |].
      apply answered_at_once. reflexivity.
  - repeat constructor.
Defined.

(** The scenario of the specification, run on the [echo] server: 2500
    identifiers in chunks of 1000. *)
Example search_2500 :
  let w : World echo := mkWorld (T:=echo) (replicate 2500 (bare "mp-149")) [] in
  match search [] None None None None 1000 3 w with
  | (inr docs, w') =>
      length docs = 2500 /\
      omap (fun r => match r with
                     | Search q => length <$> q_identifiers q
                     | _ => None
                     end) (sent w') = [1000; 1000; 500]
  | (inl _, _) => False
  end.
Proof. vm_compute. done. Qed.

(** C2. A chunk whose request fails transiently at each of the
    [max_tries_per_chunk] tries makes the whole search fail with
    [ChunkRetrievalError] and the identifiers of that chunk: the chunk was
    requested [max_tries_per_chunk] times, and the documents of the chunks
    fetched before it are not returned. *)
Theorem search_fails_when_tries_are_used_up (T : Transport)
    criteria fields sort_field ascending num_chunks chunk_size tries
    (w : World T) id_docs s1 pre chunk post docs w1 :
  chunk_size <> 0 ->
  request T (backend w) (Search (identifier_query criteria sort_field ascending))
    = (OK id_docs, s1) ->
  capped num_chunks (get_chunks chunk_size (map identifier id_docs))
    = pre ++ chunk :: post ->
  fetch_chunks tries (full_query criteria fields sort_field ascending) pre
    (mkWorld s1 (sent w ++ [Search (identifier_query criteria sort_field ascending)]))
    = (inr docs, w1) ->
  all_transient tries
    (Search (restrict (full_query criteria fields sort_field ascending) chunk))
    (backend w1) = true ->
  exists w2,
    search criteria fields sort_field ascending num_chunks chunk_size tries w
      = (inl (ChunkRetrievalError chunk), w2) /\
    sent w2 =
      sent w1 ++
      replicate tries
        (Search (restrict (full_query criteria fields sort_field ascending) chunk)).
Proof.
  intros Hsize Hids Hchunks Hpre Hfail.
  destruct (fetch_chunk_exhausted _ _ _ _ Hfail) as (w2 & Hrun & Hsent).
  exists w2. split; [| done].
  rewrite (search_chunked _ _ _ _ _ _ _ _ _ _ Hsize Hids), Hchunks.
  rewrite fetch_chunks_app, Hpre. cbn [fetch_chunks]. unfold bind.
  by rewrite Hrun.
Qed.

Lemma search_fails_when_tries_are_used_up_witness :
  let db := map bare ["mp-1"; "mp-2"; "mp-3"] in
  let w : World flaky := mkWorld (T:=flaky) ([false; true; true; true], db) [] in
  let first := Search (restrict (full_query [] None None None) ["mp-1"; "mp-2"]) in
  let second := Search (restrict (full_query [] None None None) ["mp-3"]) in
  exists w2,
    search [] None None None None 2 3 w
      = (inl (ChunkRetrievalError ["mp-3"]), w2) /\
    sent w2 =
      [Search (identifier_query [] None None); first] ++ replicate 3 second.
Proof.
  apply (search_fails_when_tries_are_used_up flaky [] None None None None 2 3
           (mkWorld (T:=flaky) ([false; true; true; true],
                     map bare ["mp-1"; "mp-2"; "mp-3"]) [])
           (map bare ["mp-1"; "mp-2"; "mp-3"])
           ([false; true; true; true], map bare ["mp-1"; "mp-2"; "mp-3"])
           [["mp-1"; "mp-2"]] ["mp-3"] []
           (map bare ["mp-1"; "mp-2"])
           (mkWorld (T:=flaky) ([true; true; true], map bare ["mp-1"; "mp-2"; "mp-3"])
              [Search (identifier_query [] None None);
               Search (restrict (full_query [] None None None) ["mp-1"; "mp-2"])])).
  - lia.
  - reflexivity.
  - reflexivity.
  - reflexivity.
  - reflexivity.
Defined.

(** C3. With the cap [num_chunks = k], in a run in which the server
    answers each of the first [k] chunks, after fewer transient failures
    than there are tries, with the documents of the identifiers of the
    chunk in their order, the search returns the documents of the first
    [k * chunk_size] identifiers of the sorted identifier list, in that
    order, and of all [N] identifiers when [N] is not larger; no other
    chunk is requested. *)
Theorem search_capped_returns_the_first_chunks (T : Transport)
    criteria fields sort_field ascending k chunk_size tries
    (w : World T) id_docs s1 outcomes s2 :
  let ids := map identifier id_docs in
  let chunks := take k (get_chunks chunk_size ids) in
  let q := full_query criteria fields sort_field ascending in
  0 < chunk_size ->
  request T (backend w) (Search (identifier_query criteria sort_field ascending))
    = (OK id_docs, s1) ->
  served tries q s1 chunks outcomes s2 ->
  Forall2 (fun chunk outcome => map identifier outcome.2 = chunk) chunks outcomes ->
  search criteria fields sort_field ascending (Some k) chunk_size tries w
    = (inr (concat outcomes.*2),
       mkWorld s2
         (sent w ++
          Search (identifier_query criteria sort_field ascending) ::
          requests_of q chunks outcomes)) /\
  map identifier (concat outcomes.*2) = take (k * chunk_size) ids /\
  length (concat outcomes.*2) = min (k * chunk_size) (length ids) /\
  (length ids <= k * chunk_size -> map identifier (concat outcomes.*2) = ids).
Proof.
  intros ids chunks q Hsize Hids Hrun Hanswers.
  assert (chunk_size <> 0) as Hne by lia.
  assert (map identifier (concat outcomes.*2) = take (k * chunk_size) ids)
    as Hdocs.
  { rewrite <- get_chunks_take by done. fold chunks. clear -Hanswers.
    induction Hanswers as [|chunk [failures docs] ? ? Hchunk _ IH]; [done |].
    cbn [fmap list_fmap snd concat] in *. by rewrite map_app, Hchunk, IH. }
  split; [| split; [| split]].
  - rewrite (search_chunked _ _ _ _ _ _ _ _ _ _ Hne Hids). cbn [capped].
    fold ids chunks q. rewrite (fetch_chunks_served _ _ _ _ _ _ _ Hrun).
    by rewrite <- app_assoc.
  - done.
  - rewrite <- (length_map identifier), Hdocs. apply length_take.
  - intros Hall_ids. rewrite Hdocs. by apply take_ge.
Qed.

Lemma search_capped_returns_the_first_chunks_witness :
  let ids := ["mp-1"; "mp-2"; "mp-3"; "mp-4"; "mp-5"] in
  let w : World flaky_store := mkWorld (T:=flaky_store) ([false; true], map bare ids) [] in
  let chunks := take 2 (get_chunks 2 ids) in
  let q := full_query [] None None None in
  let outcomes := [(0, map bare ["mp-1"; "mp-2"]); (1, map bare ["mp-3"; "mp-4"])] in
  search [] None None None (Some 2) 2 3 w
    = (inr (concat outcomes.*2),
       mkWorld (T:=flaky_store) ([], map bare ids)
         (sent w ++
          Search (identifier_query [] None None) ::
          requests_of q chunks outcomes)) /\
  map identifier (concat outcomes.*2) = take (2 * 2) ids /\
  length (concat outcomes.*2) = min (2 * 2) (length ids) /\
  (length ids <= 2 * 2 -> map identifier (concat outcomes.*2) = ids).
Proof.
  apply (search_capped_returns_the_first_chunks flaky_store [] None None None 2 2 3
           (mkWorld (T:=flaky_store)
              ([false; true], map bare ["mp-1"; "mp-2"; "mp-3"; "mp-4"; "mp-5"]) [])
           (map bare ["mp-1"; "mp-2"; "mp-3"; "mp-4"; "mp-5"])
           ([false; true], map bare ["mp-1"; "mp-2"; "mp-3"; "mp-4"; "mp-5"])
           [(0, map bare ["mp-1"; "mp-2"]); (1, map bare ["mp-3"; "mp-4"])]
           ([], map bare ["mp-1"; "mp-2"; "mp-3"; "mp-4"; "mp-5"])).
  - lia.
  - reflexivity.
  - eapply served_cons; [| lia |].
    + apply answered_at_once. reflexivity.
    + eapply served_cons; [| lia | apply served_nil].
      eapply answered_after_failure; [reflexivity |].
      apply answered_at_once. reflexivity.
  - repeat constructor.
Defined.

(** *** Lookup by identifier *)

(** C6. [get_by_id] fails with [ValidationError], and sends nothing, when
    the identifier is empty or does not match the pattern of the resource;
    for a well-formed identifier that no document matches it fails with
    [NotFoundError]. *)
Theorem get_by_id_validation_and_not_found (T : Transport)
    (pattern : string -> bool) id fields (w : World T) :
  (id = "" \/ pattern id = false ->
   get_by_id pattern id fields w = (inl ValidationError, w)) /\
  (id <> "" -> pattern id = true ->
   forall s', request T (backend w) (GetById id fields) = (OK [], s') ->
   get_by_id pattern id fields w =
     (inl NotFoundError, mkWorld s' (sent w ++ [GetById id fields]))).
Proof.
  unfold get_by_id. split.
  - intros [-> | Hpattern].
    + done.
    + rewrite Hpattern. by rewrite orb_true_r.
  - intros Hid Hpattern s' Hreq.
    rewrite bool_decide_eq_false_2, Hpattern by done. cbn [orb negb].
    unfold bind, send_once, send. by rewrite Hreq.
Qed.

Lemma get_by_id_validation_and_not_found_witness :
  let w : World echo := mkWorld (T:=echo) (map bare ["mp-1"; "mp-2"]) [] in
  get_by_id (String.prefix "mp-") "" None w = (inl ValidationError, w) /\
  get_by_id (String.prefix "mp-") "149" None w = (inl ValidationError, w) /\
  get_by_id (String.prefix "mp-") "mp-3" None w =
    (inl NotFoundError, mkWorld (T:=echo) (backend w) [GetById "mp-3" None]).
Proof.
  split; [| split].
  - apply (proj1 (get_by_id_validation_and_not_found echo (String.prefix "mp-")
                    "" None (mkWorld (T:=echo) (map bare ["mp-1"; "mp-2"]) []))).
    left. reflexivity.
  - apply (proj1 (get_by_id_validation_and_not_found echo (String.prefix "mp-")
                    "149" None (mkWorld (T:=echo) (map bare ["mp-1"; "mp-2"]) []))).
    right. reflexivity.
  - apply (proj2 (get_by_id_validation_and_not_found echo (String.prefix "mp-")
                    "mp-3" None (mkWorld (T:=echo) (map bare ["mp-1"; "mp-2"]) []))).
    + discriminate.
    + reflexivity.
    + reflexivity.
Defined.

End ResourceClientFacts.


(** ** The facade *)

Module FacadeFacts.
Import Facade.

(** *** Methods that are not implemented *)

(** C4. Each convenience method without an implementation ([query],
    [get_materials_id_references], [get_interface_reactions] and the five
    others) raises [NotImplementedError] whatever its arguments, and changes
    nothing. *)
Theorem unimplemented_methods_raise (a b c d e f g h : Value) (w : World) :
  query a b c d e f g h w = (inl NotImplementedError, w) /\
  get_materials_id_references a w = (inl NotImplementedError, w) /\
  get_interface_reactions a b c d e w = (inl NotImplementedError, w) /\
  get_phonon_dos_by_material_id a w = (inl NotImplementedError, w) /\
  submit_structures a b c w = (inl NotImplementedError, w) /\
  get_stability a w = (inl NotImplementedError, w) /\
  get_cohesive_energy a b w = (inl NotImplementedError, w) /\
  get_reaction a b w = (inl NotImplementedError, w).
Proof. repeat split. Qed.

(** *** The scope of a facade *)

Lemma exit_closes (self : MPRester) sid exc w :
  self !! "session" = Some (VSession sid) ->
  __exit__ self exc w =
    (inr VNone, mkWorld (sessions w) (closed w ++ [sid]) (resters w) (warnings w)).
Proof.
  intros Hsession. unfold __exit__, getattr, bind. by rewrite Hsession.
Qed.

(** C5. However the body of [with facade: ...] ends, by returning or by
    raising, leaving the scope closes the session of the facade exactly
    once: the world after the scope is the world the body left, with one
    more [close] of that session recorded, and the outcome of the body is
    passed on. *)
Theorem with_closes_the_session_once {A} (self : MPRester) (sid : nat)
    (body : MPRester -> Py A) (w : World) :
  self !! "session" = Some (VSession sid) ->
  with_ self body w =
    (match (body self w).1 with
     | inr a => inr (Some a)
     | inl e => inl e
     end,
     let w1 := (body self w).2 in
     mkWorld (sessions w1) (closed w1 ++ [sid]) (resters w1) (warnings w1)).
Proof.
  intros Hsession. unfold with_, __enter__, bind, ret.
  destruct (body self w) as [[e | a] w1]; cbn [fst snd];
    by rewrite (exit_closes _ _ _ _ Hsession).
Qed.

Lemma with_closes_the_session_once_witness :
  let self : MPRester := <["session" := VSession 0]> ∅ in
  with_ self (fun _ => raise (A:=nat) IndexError) fresh =
    (inl IndexError, mkWorld 0 [0] [] []) /\
  with_ self (fun _ => ret 5) fresh = (inr (Some 5), mkWorld 0 [0] [] []).
Proof.
  split.
  - apply (with_closes_the_session_once (<["session" := VSession 0]> ∅) 0
             (fun _ => raise (A:=nat) IndexError) fresh).
    reflexivity.
  - apply (with_closes_the_session_once (<["session" := VSession 0]> ∅) 0
             (fun _ => ret 5) fresh).
    reflexivity.
Defined.

(** *** Looking up the material of a task *)

(** C8. [get_materials_id_from_task_id] looks at what the search for the
    task returns: with exactly one document it returns the identifier of
    its material as a string; with none it emits a warning and returns
    [None] without raising; with more than one it raises [ValueError]. *)
Theorem get_materials_id_from_task_id_cases (C : Collaborators)
    (task_id : string) (w : World) docs w1 :
  materials_search C [task_id] ["material_id"] w = (inr docs, w1) ->
  (forall doc, docs = [doc] ->
     get_materials_id_from_task_id (C:=C) task_id w =
       (inr (Some (mpid_str C (material_id doc))), w1)) /\
  (docs = [] ->
     get_materials_id_from_task_id (C:=C) task_id w =
       (inr None,
        mkWorld (sessions w1) (closed w1) (resters w1)
          (warnings w1 ++
             ["No material found containing task " +:+ task_id +:+
              ". Please report it if you suspect a task has gone missing."]))) /\
  (1 < length docs ->
     get_materials_id_from_task_id (C:=C) task_id w =
       (inl (ValueError
               ("Multiple documents return for " +:+ task_id +:+
                ", this should not happen, please report it!")), w1)).
Proof.
  intros Hsearch. unfold get_materials_id_from_task_id, bind.
  rewrite Hsearch. split; [| split].
  - by intros doc ->.
  - by intros ->.
  - intros Hmany.
    destruct (Nat.eqb_spec (length docs) 1) as [Hone | _]; [lia |].
    by destruct (Nat.ltb_spec 1 (length docs)) as [_ | Hle]; [| lia].
Qed.

Lemma get_materials_id_from_task_id_cases_witness :
  get_materials_id_from_task_id (C:=lab) "mp-149" fresh
    = (inr (Some "mp-149"), fresh) /\
  get_materials_id_from_task_id (C:=lab) "mp-3" fresh
    = (inr None,
       mkWorld 0 [] []
         ["No material found containing task mp-3. Please report it if you suspect a task has gone missing."]) /\
  get_materials_id_from_task_id (C:=lab) "mp-2" fresh
    = (inl (ValueError
              "Multiple documents return for mp-2, this should not happen, please report it!"),
       fresh).
Proof.
  split; [| split].
  - apply (proj1 (get_materials_id_from_task_id_cases lab "mp-149" fresh
                    [mkMaterialsDoc 149] fresh eq_refl) (mkMaterialsDoc 149)).
    reflexivity.
  - apply (proj1 (proj2 (get_materials_id_from_task_id_cases lab "mp-3" fresh
                           [] fresh eq_refl))).
    reflexivity.
  - apply (proj2 (proj2 (get_materials_id_from_task_id_cases lab "mp-2" fresh
                           [mkMaterialsDoc 2; mkMaterialsDoc 7] fresh eq_refl))).
    simpl. lia.
Defined.

(** *** Surface data *)

Lemma first_surface_none eq_indices l :
  Forall (fun surface => miller_index surface ∉ eq_indices) l ->
  first_surface eq_indices l = None.
Proof.
  induction 1 as [|surface l Hsurface _ IH]; [done |].
  cbn [first_surface]. by rewrite bool_decide_eq_false_2.
Qed.

Lemma first_surface_not_doc eq_indices l doc :
  first_surface eq_indices l <> Some (DocDict doc).
Proof.
  induction l as [|surface l IH]; [done |].
  cbn [first_surface]. by case_bool_decide.
Qed.

(** C9. Once the surface document and the structure of the material are
    fetched: for a non-empty [miller_index] none of whose symmetric
    equivalents is the miller index of a surface of the document,
    [get_surface_data] returns [None]; it returns the dict of the whole
    document when [miller_index] is [None] or empty, and in no other case. *)
Theorem get_surface_data_none_without_match (C : Collaborators)
    (material_id : string) (miller_index : option (list Z))
    (w : World) doc w1 structure w2 :
  surface_properties_get_document_by_id C material_id w = (inr doc, w1) ->
  get_structure_by_material_id (C:=C) material_id true false w1
    = (inr structure, w2) ->
  (forall hkl eq_indices w3,
     miller_index = Some hkl -> hkl <> [] ->
     get_symmetrically_equivalent_miller_indices C structure hkl w2
       = (inr eq_indices, w3) ->
     Forall (fun surface => Facade.miller_index surface ∉ eq_indices)
       (surfaces doc) ->
     get_surface_data (C:=C) material_id miller_index w = (inr None, w3)) /\
  (miller_index = None \/ miller_index = Some [] ->
   get_surface_data (C:=C) material_id miller_index w
     = (inr (Some (DocDict doc)), w2)) /\
  (forall d w',
     get_surface_data (C:=C) material_id miller_index w
       = (inr (Some (DocDict d)), w') ->
     miller_index = None \/ miller_index = Some []).
Proof.
  intros Hdoc Hstructure. unfold get_surface_data, bind.
  rewrite Hdoc, Hstructure. split; [| split].
  - intros hkl eq_indices w3 -> Hhkl Heq Hnone.
    destruct hkl as [|h hkl]; [done |].
    rewrite Heq. unfold ret. by rewrite first_surface_none.
  - by intros [-> | ->].
  - intros d w' Hrun.
    destruct miller_index as [[|h hkl] |]; [by right | | by left].
    destruct (get_symmetrically_equivalent_miller_indices C structure (h :: hkl) w2)
      as [[e | eq_indices] w3]; [done |].
    unfold ret in Hrun. injection Hrun as Hrun _.
    by apply first_surface_not_doc in Hrun.
Qed.

Lemma get_surface_data_none_without_match_witness :
  get_surface_data (C:=lab) "mp-149" (Some [1; 1; 0]%Z) fresh = (inr None, fresh) /\
  get_surface_data (C:=lab) "mp-149" (Some []) fresh
    = (inr (Some (DocDict silicon)), fresh).
Proof.
  split.
  - apply (proj1 (get_surface_data_none_without_match lab "mp-149"
                    (Some [1; 1; 0]%Z) fresh silicon fresh (OneStructure tt) fresh
                    eq_refl eq_refl)
             [1; 1; 0]%Z [[1; 1; 0]; [-1; -1; 0]]%Z fresh).
    + reflexivity.
    + discriminate.
    + reflexivity.
    + apply (bool_decide_unpack _). reflexivity.
  - apply (proj1 (proj2 (get_surface_data_none_without_match lab "mp-149"
                           (Some []) fresh silicon fresh (OneStructure tt) fresh
                           eq_refl eq_refl))).
    right. reflexivity.
Defined.

(** *** The identifiers of the materials of a formula *)

Section Sorted.
Context {A : Type} (lt : A -> A -> bool).

Hypothesis lt_asymmetric : forall a b, lt a b = true -> lt b a = false.
Hypothesis before_transitive :
  forall a b c, before lt a b -> before lt b c -> before lt a c.

Lemma insert_permutation x l : insert lt x l ≡ₚ x :: l.
Proof.
  induction l as [|y l IH]; [done |].
  cbn [insert]. destruct (lt y x); [| done].
  rewrite IH. apply Permutation_swap.
Qed.

Lemma sorted_permutation l : sorted lt l ≡ₚ l.
Proof.
  induction l as [|x l IH]; [done |].
  cbn [sorted foldr]. fold (sorted lt l). by rewrite insert_permutation, IH.
Qed.

Lemma insert_sorted x l :
  StronglySorted (before lt) l -> StronglySorted (before lt) (insert lt x l).
Proof.
  induction 1 as [|y l Hsorted IH Hy].
  - repeat constructor.
  - cbn [insert]. destruct (lt y x) eqn:Hyx.
    + constructor; [done |].
      rewrite insert_permutation. constructor; [| done].
      by apply lt_asymmetric.
    + constructor; [by constructor |].
      constructor; [done |].
      eapply Forall_impl; [exact Hy |].
      intros z Hyz. by apply before_transitive with y.
Qed.

Lemma sorted_sorted l : StronglySorted (before lt) (sorted lt l).
Proof.
  induction l as [|x l IH]; [constructor |].
  cbn [sorted foldr]. by apply insert_sorted.
Qed.

End Sorted.

(** C10. [get_materials_ids] returns the material identifiers of the
    documents found for the formula, each as often as it was found, in
    ascending order of the identifiers: no identifier is followed, anywhere
    later in the list, by a smaller one. The order of the identifiers is
    that of [MPID], assumed to be a strict weak order. *)
Theorem get_materials_ids_sorted (C : Collaborators)
    (chemsys_formula : string) (w : World) docs w1 :
  (forall a b, mpid_lt C a b = true -> mpid_lt C b a = false) ->
  (forall a b c, before (mpid_lt C) a b -> before (mpid_lt C) b c ->
                 before (mpid_lt C) a c) ->
  materials_search_material_docs C chemsys_formula false ["material_id"] w
    = (inr docs, w1) ->
  exists ids,
    get_materials_ids (C:=C) chemsys_formula w = (inr ids, w1) /\
    ids ≡ₚ map material_id docs /\
    StronglySorted (before (mpid_lt C)) ids.
Proof.
  intros Hasym Htrans Hsearch.
  exists (sorted (mpid_lt C) (map material_id docs)). split; [| split].
  - unfold get_materials_ids, bind. by rewrite Hsearch.
  - apply sorted_permutation.
  - by apply sorted_sorted.
Qed.

Lemma get_materials_ids_sorted_witness :
  exists ids,
    get_materials_ids (C:=lab) "Si" fresh = (inr ids, fresh) /\
    ids ≡ₚ [1014; 149; 165] /\
    StronglySorted (before Nat.ltb) ids.
Proof.
  apply (get_materials_ids_sorted lab "Si" fresh
           [mkMaterialsDoc 1014; mkMaterialsDoc 149; mkMaterialsDoc 165] fresh).
  - intros a b Hab. apply Nat.ltb_lt in Hab. apply Nat.ltb_ge. cbn in *. lia.
  - unfold before. intros a b c Hab Hbc.
    apply Nat.ltb_ge in Hab, Hbc. apply Nat.ltb_ge. cbn in *. lia.
  - reflexivity.
Defined.

(** *** Construction *)

Lemma init_rester_eq api_key endpoint include_user_agent
    (self : MPRester) cls session items w :
  self !! "session" = Some session ->
  self !! "_all_resters" = Some (VList items) ->
  init_rester api_key endpoint include_user_agent self cls w =
    (inr (<[attribute_name cls := VRester (length (resters w))]>
            (<["_all_resters" := VList (items ++ [VRester (length (resters w))])]>
               self)),
     mkWorld (sessions w) (closed w)
       (resters w ++ [mkRester cls api_key endpoint include_user_agent session])
       (warnings w)).
Proof.
  intros Hsession Hall. unfold init_rester, bind, getattr, new, ret.
  by rewrite Hsession, Hall.
Qed.

Lemma reserved_session name : name ∉ reserved -> name <> "session".
Proof. unfold reserved. rewrite !not_elem_of_cons. tauto. Qed.

Lemma reserved_all_resters name : name ∉ reserved -> name <> "_all_resters".
Proof. unfold reserved. rewrite !not_elem_of_cons. tauto. Qed.

Lemma reserved_alias name : name ∉ reserved -> name ∉ aliases.*1.
Proof. unfold reserved. rewrite !not_elem_of_cons. tauto. Qed.

(** The loop of [__init__]: every class gets one new instance, built with
    the session of the facade, appended to [_all_resters] and stored under
    the name of the class; nothing else changes. *)
Lemma init_resters_spec api_key endpoint include_user_agent sid classes :
  forall (self : MPRester) items w,
    self !! "session" = Some (VSession sid) ->
    self !! "_all_resters" = Some (VList items) ->
    Forall (fun cls => attribute_name cls ∉ reserved) classes ->
    NoDup (attribute_name <$> classes) ->
    exists self' : MPRester,
      init_resters api_key endpoint include_user_agent self classes w =
        (inr self',
         mkWorld (sessions w) (closed w)
           (resters w ++
              ((fun cls => mkRester cls api_key endpoint include_user_agent
                             (VSession sid)) <$> classes))
           (warnings w)) /\
      self' !! "_all_resters" =
        Some (VList (items ++
                       (VRester <$> seq (length (resters w)) (length classes)))) /\
      (forall i cls, classes !! i = Some cls ->
         self' !! attribute_name cls = Some (VRester (length (resters w) + i))) /\
      (forall name, name <> "_all_resters" ->
         name ∉ attribute_name <$> classes -> self' !! name = self !! name).
Proof.
  induction classes as [|cls classes IH];
    intros self items w Hsession Hall Hfree Hdistinct.
  - exists self. cbn [init_resters fmap list_fmap length seq].
    rewrite !app_nil_r. repeat split; try done.
    by destruct w.
  - apply Forall_cons in Hfree as [Hcls Hfree].
    rewrite fmap_cons in Hdistinct.
    apply NoDup_cons in Hdistinct as [Hfresh Hdistinct].
    pose proof (reserved_session _ Hcls) as Hne_session.
    pose proof (reserved_all_resters _ Hcls) as Hne_all.
    set (first := length (resters w)).
    set (self1 := <[attribute_name cls := VRester first]>
                    (<["_all_resters" := VList (items ++ [VRester first])]> self)).
    set (w1 := mkWorld (sessions w) (closed w)
                 (resters w ++
                    [mkRester cls api_key endpoint include_user_agent (VSession sid)])
                 (warnings w)).
    destruct (IH self1 (items ++ [VRester first]) w1)
      as (self' & Hrun & Hall' & Hexposed & Hframe); try done.
    { unfold self1. by rewrite lookup_insert_ne, lookup_insert_ne. }
    { unfold self1. by rewrite lookup_insert_ne, lookup_insert_eq. }
    assert (length (resters w1) = S first) as Hlen.
    { unfold w1. cbn [resters]. rewrite length_app. cbn. unfold first. lia. }
    exists self'. split; [| split; [| split]].
    + cbn [init_resters]. unfold bind at 1.
      rewrite (init_rester_eq _ _ _ _ _ _ _ _ Hsession Hall).
      fold first self1 w1. rewrite Hrun. unfold w1. cbn [sessions closed resters warnings].
      by rewrite fmap_cons, <- app_assoc.
    + rewrite Hall', Hlen. cbn [length seq]. rewrite fmap_cons.
      by rewrite <- app_assoc.
    + intros [|i] cls' Hi.
      * injection Hi as <-. rewrite Hframe by done.
        unfold self1. rewrite lookup_insert_eq. do 2 f_equal. lia.
      * rewrite (Hexposed i cls' Hi), Hlen. do 2 f_equal. lia.
    + intros name Hname Hother. rewrite fmap_cons in Hother.
      apply not_elem_of_cons in Hother as [Hne Hother].
      rewrite Hframe by done. unfold self1.
      by rewrite lookup_insert_ne, lookup_insert_ne.
Qed.

Lemma bound_method_eq (self : MPRester) attr method ref r w :
  self !! attr = Some (VRester ref) ->
  resters w !! ref = Some r ->
  method ∈ methods (r_class r) ->
  bound_method self attr method w = (inr (VMethod ref method), w).
Proof.
  intros Hattr Href Hmethod. unfold bound_method, bind, getattr.
  rewrite Hattr. unfold ret. rewrite Href.
  by rewrite bool_decide_eq_true_2.
Qed.

(** Binding the convenience names succeeds when the resters they are taken
    from are in place, and touches no other name. *)
Lemma bind_aliases_spec l :
  forall (self : MPRester) w,
    Forall (fun alias : string * (string * string) =>
              (alias.2.1 ∉ l.*1) /\
              exists ref r,
                self !! alias.2.1 = Some (VRester ref) /\
                resters w !! ref = Some r /\
                alias.2.2 ∈ methods (r_class r)) l ->
    exists self' : MPRester,
      bind_aliases self l w = (inr self', w) /\
      (forall name, name ∉ l.*1 -> self' !! name = self !! name).
Proof.
  induction l as [|[name [attr method]] l IH]; intros self w Hl.
  - by exists self.
  - apply Forall_cons in Hl as [[Hattr (ref & r & Hself & Href & Hmethod)] Hl].
    cbn [fst snd] in Hattr, Hself, Hmethod.
    destruct (IH (<[name := VMethod ref method]> self) w)
      as (self' & Hrun & Hframe).
    { eapply Forall_impl; [exact Hl |].
      intros [name' [attr' method']].
      cbn [fst snd fmap list_fmap].
      intros [Hattr' (ref' & r' & Hself' & Href' & Hmethod')].
      apply not_elem_of_cons in Hattr' as [Hne Hattr'].
      split; [done |]. exists ref', r'.
      by rewrite lookup_insert_ne. }
    exists self'. split.
    + cbn [bind_aliases]. unfold bind.
      by rewrite (bound_method_eq _ _ _ _ _ _ Hself Href Hmethod).
    + intros name' Hname'. cbn [fmap list_fmap fst] in Hname'.
      apply not_elem_of_cons in Hname' as [Hne Hname'].
      rewrite Hframe by done. by rewrite lookup_insert_ne.
Qed.

Lemma aliases_read_resters :
  Forall (fun alias : string * (string * string) => alias.2.1 ∉ aliases.*1) aliases.
Proof. apply (bool_decide_unpack _). by vm_compute. Qed.

(** C7. Constructing the facade creates one session and, for every class of
    the registry, exactly one rester instance built with that session; the
    instances are listed in [_all_resters] in the order of the registry and
    each is held under the attribute named by the suffix of its class with
    ["/"] replaced by ["_"]. This holds for a registry whose attribute
    names differ from one another and from the names [__init__] uses
    itself, and which has the resters the convenience names are taken
    from. *)
Theorem init_exposes_one_rester_per_class (subclasses : list ResterClass)
    (api_key : option string) (endpoint : string)
    (notify_db_version include_user_agent : bool) (w : World) :
  NoDup (attribute_name <$> subclasses) ->
  Forall (fun cls => attribute_name cls ∉ reserved) subclasses ->
  Forall (provides subclasses) aliases ->
  exists (self : MPRester) w',
    __init__ subclasses api_key endpoint notify_db_version include_user_agent w
      = (inr self, w') /\
    let session := VSession (sessions w) in
    let first := length (resters w) in
    sessions w' = S (sessions w) /\
    self !! "session" = Some session /\
    resters w' =
      resters w ++
      ((fun cls => mkRester cls api_key endpoint include_user_agent session)
         <$> subclasses) /\
    self !! "_all_resters" =
      Some (VList (VRester <$> seq first (length subclasses))) /\
    (forall i cls, subclasses !! i = Some cls ->
       self !! attribute_name cls = Some (VRester (first + i))).
Proof.
  intros Hdistinct Hfree Hprovides.
  set (self0 := (<["_all_resters" := VList []]>
                   (<["session" := VSession (sessions w)]>
                      (<["endpoint" := VStr endpoint]>
                         (<["api_key" := of_option api_key]> ∅)))) : MPRester).
  set (w0 := mkWorld (S (sessions w)) (closed w) (resters w) (warnings w)).
  destruct (init_resters_spec api_key endpoint include_user_agent (sessions w)
              subclasses self0 [] w0)
    as (self1 & Hloop & Hall & Hexposed & Hframe); try done.
  cbn [w0 sessions closed resters warnings app] in Hloop, Hall, Hexposed.
  set (w1 := mkWorld (S (sessions w)) (closed w)
               (resters w ++
                  ((fun cls => mkRester cls api_key endpoint include_user_agent
                                 (VSession (sessions w))) <$> subclasses))
               (warnings w)) in Hloop.
  destruct (bind_aliases_spec aliases self1 w1) as (self & Hbind & Hkept).
  { pose proof aliases_read_resters as Hread.
    rewrite Forall_forall in Hread, Hprovides. apply Forall_forall.
    intros alias Halias. split; [by apply Hread |].
    destruct (Hprovides alias Halias) as (cls & Hcls & Hname & Hmethod).
    apply list_elem_of_lookup in Hcls as [i Hi].
    exists (length (resters w) + i),
      (mkRester cls api_key endpoint include_user_agent (VSession (sessions w))).
    split; [| split].
    - by rewrite <- Hname, (Hexposed i cls Hi).
    - unfold w1. cbn [resters].
      rewrite lookup_app_r by lia.
      replace (length (resters w) + i - length (resters w)) with i by lia.
      by rewrite list_lookup_fmap, Hi.
    - done. }
  exists self, w1. split; [| split; [| split; [| split; [| split]]]].
  - unfold __init__, bind, _create_session. fold w0 self0.
    by rewrite Hloop.
  - done.
  - rewrite Hkept by (apply (bool_decide_unpack _); by vm_compute).
    rewrite Hframe; [done | done |].
    intros Hin. apply list_elem_of_fmap in Hin as (cls & Hname & Hcls).
    rewrite Forall_forall in Hfree. apply (reserved_session _ (Hfree cls Hcls)).
    done.
  - done.
  - by rewrite Hkept by (apply (bool_decide_unpack _); by vm_compute).
  - intros i cls Hi.
    rewrite Hkept; [by apply Hexposed |].
    apply reserved_alias. rewrite Forall_forall in Hfree. apply Hfree.
    by apply list_elem_of_lookup_2 in Hi.
Qed.

Lemma init_exposes_one_rester_per_class_witness :
  exists (self : MPRester) w',
    __init__ registry (Some "key") "https://api.materialsproject.org/" true true fresh
      = (inr self, w') /\
    let session := VSession 0 in
    let first := 0 in
    sessions w' = 1 /\
    self !! "session" = Some session /\
    resters w' =
      [] ++ ((fun cls => mkRester cls (Some "key")
                           "https://api.materialsproject.org/" true session)
               <$> registry) /\
    self !! "_all_resters" =
      Some (VList (VRester <$> seq first (length registry))) /\
    (forall i cls, registry !! i = Some cls ->
       self !! attribute_name cls = Some (VRester (first + i))).
Proof.
  apply (init_exposes_one_rester_per_class registry (Some "key")
           "https://api.materialsproject.org/" true true fresh).
  - apply (bool_decide_unpack _). by vm_compute.
  - apply (bool_decide_unpack _). by vm_compute.
  - unfold aliases, provides. repeat apply Forall_cons_2; [.. | apply Forall_nil_2].
    + exists (mkResterClass "materials"
                ["find_structure"; "search"; "search_material_docs";
                 "get_structure_by_material_id"]).
      split; [by apply (list_elem_of_lookup_2 _ 0) | split; [reflexivity |]].
      apply (bool_decide_unpack _). by vm_compute.
    + exists (mkResterClass "electronic_structure/bandstructure"
                ["get_bandstructure_from_material_id"]).
      split; [by apply (list_elem_of_lookup_2 _ 1) | split; [reflexivity |]].
      apply (bool_decide_unpack _). by vm_compute.
    + exists (mkResterClass "electronic_structure/dos" ["get_dos_from_material_id"]).
      split; [by apply (list_elem_of_lookup_2 _ 2) | split; [reflexivity |]].
      apply (bool_decide_unpack _). by vm_compute.
    + exists (mkResterClass "charge_density"
                ["get_charge_density_from_calculation_id";
                 "get_charge_density_calculation_details";
                 "get_charge_density_calculation_ids_from_material_id"]).
      split; [by apply (list_elem_of_lookup_2 _ 3) | split; [reflexivity |]].
      apply (bool_decide_unpack _). by vm_compute.
    + exists (mkResterClass "charge_density"
                ["get_charge_density_from_calculation_id";
                 "get_charge_density_calculation_details";
                 "get_charge_density_calculation_ids_from_material_id"]).
      split; [by apply (list_elem_of_lookup_2 _ 3) | split; [reflexivity |]].
      apply (bool_decide_unpack _). by vm_compute.
    + exists (mkResterClass "charge_density"
                ["get_charge_density_from_calculation_id";
                 "get_charge_density_calculation_details";
                 "get_charge_density_calculation_ids_from_material_id"]).
      split; [by apply (list_elem_of_lookup_2 _ 3) | split; [reflexivity |]].
      apply (bool_decide_unpack _). by vm_compute.
Defined.

(** ** More about the facade *)

(** *** Construction without the expected resters, or with clashing names *)

(** X1. A registry without a rester stored under [materials] cannot be
    used to construct the facade: [__init__] raises [AttributeError] when
    it binds [find_structure], after it has created the session and one
    instance per class; the session is left open. *)
Theorem init_without_materials_raises (subclasses : list ResterClass)
    (api_key : option string) (endpoint : string)
    (notify_db_version include_user_agent : bool) (w : World) :
  NoDup (attribute_name <$> subclasses) ->
  Forall (fun cls => attribute_name cls ∉ reserved) subclasses ->
  "materials" ∉ attribute_name <$> subclasses ->
  __init__ subclasses api_key endpoint notify_db_version include_user_agent w =
    (inl (AttributeError "materials"),
     mkWorld (S (sessions w)) (closed w)
       (resters w ++
          ((fun cls => mkRester cls api_key endpoint include_user_agent
                         (VSession (sessions w))) <$> subclasses))
       (warnings w)).
Proof.
  intros Hdistinct Hfree Hmissing.
  set (self0 := (<["_all_resters" := VList []]>
                   (<["session" := VSession (sessions w)]>
                      (<["endpoint" := VStr endpoint]>
                         (<["api_key" := of_option api_key]> ∅)))) : MPRester).
  set (w0 := mkWorld (S (sessions w)) (closed w) (resters w) (warnings w)).
  destruct (init_resters_spec api_key endpoint include_user_agent (sessions w)
              subclasses self0 [] w0)
    as (self1 & Hloop & _ & _ & Hframe); try done.
  unfold __init__, bind, _create_session. fold w0 self0. rewrite Hloop.
  cbn [aliases bind_aliases]. unfold bind, bound_method, bind, getattr.
  by rewrite Hframe.
Qed.

Lemma init_without_materials_raises_witness :
  __init__ [mkResterClass "thermo" ["search_thermo_docs"]] None
    "https://api.materialsproject.org/" true true fresh =
    (inl (AttributeError "materials"),
     mkWorld 1 []
       [mkRester (mkResterClass "thermo" ["search_thermo_docs"]) None
          "https://api.materialsproject.org/" true (VSession 0)] []).
Proof.
  apply (init_without_materials_raises
           [mkResterClass "thermo" ["search_thermo_docs"]] None
           "https://api.materialsproject.org/" true true fresh).
  - apply (bool_decide_unpack _). by vm_compute.
  - apply (bool_decide_unpack _). by vm_compute.
  - apply (bool_decide_unpack _). by vm_compute.
Defined.

(** X2. The loop of [__init__] gives every class its own instance, listed
    in [_all_resters]; when several classes derive the same attribute name,
    the attribute holds the instance of the last of them, so the earlier
    ones cannot be reached by name. *)
Theorem init_resters_last_class_wins api_key endpoint include_user_agent sid
    (classes : list ResterClass) (self : MPRester) items w :
  self !! "session" = Some (VSession sid) ->
  self !! "_all_resters" = Some (VList items) ->
  Forall (fun cls => attribute_name cls <> "session" /\
                     attribute_name cls <> "_all_resters") classes ->
  exists self' : MPRester,
    init_resters api_key endpoint include_user_agent self classes w =
      (inr self',
       mkWorld (sessions w) (closed w)
         (resters w ++
            ((fun cls => mkRester cls api_key endpoint include_user_agent
                           (VSession sid)) <$> classes))
         (warnings w)) /\
    self' !! "_all_resters" =
      Some (VList (items ++
                     (VRester <$> seq (length (resters w)) (length classes)))) /\
    (forall i cls, classes !! i = Some cls ->
       (forall j cls', i < j -> classes !! j = Some cls' ->
          attribute_name cls' <> attribute_name cls) ->
       self' !! attribute_name cls = Some (VRester (length (resters w) + i))) /\
    (forall name, name <> "_all_resters" ->
       name ∉ attribute_name <$> classes -> self' !! name = self !! name).
Proof.
  revert self items w.
  induction classes as [|cls classes IH]; intros self items w Hsession Hall Hfree.
  - exists self. cbn [init_resters fmap list_fmap length seq].
    rewrite !app_nil_r. repeat split; try done.
    by destruct w.
  - apply Forall_cons in Hfree as [[Hne_session Hne_all] Hfree].
    set (first := length (resters w)).
    set (self1 := <[attribute_name cls := VRester first]>
                    (<["_all_resters" := VList (items ++ [VRester first])]> self)).
    set (w1 := mkWorld (sessions w) (closed w)
                 (resters w ++
                    [mkRester cls api_key endpoint include_user_agent (VSession sid)])
                 (warnings w)).
    destruct (IH self1 (items ++ [VRester first]) w1)
      as (self' & Hrun & Hall' & Hexposed & Hframe); try done.
    { unfold self1. by rewrite lookup_insert_ne, lookup_insert_ne. }
    { unfold self1. by rewrite lookup_insert_ne, lookup_insert_eq. }
    assert (length (resters w1) = S first) as Hlen.
    { unfold w1. cbn [resters]. rewrite length_app. cbn. unfold first. lia. }
    exists self'. split; [| split; [| split]].
    + cbn [init_resters]. unfold bind at 1.
      rewrite (init_rester_eq _ _ _ _ _ _ _ _ Hsession Hall).
      fold first self1 w1. rewrite Hrun. unfold w1.
      cbn [sessions closed resters warnings].
      by rewrite fmap_cons, <- app_assoc.
    + rewrite Hall', Hlen. cbn [length seq]. rewrite fmap_cons.
      by rewrite <- app_assoc.
    + intros [|i] cls' Hi Hlast.
      * injection Hi as <-. rewrite Hframe; [| done |].
        { unfold self1. rewrite lookup_insert_eq. do 2 f_equal. lia. }
        intros Hin. apply list_elem_of_fmap in Hin as (cls' & Hname & Hcls').
        apply list_elem_of_lookup in Hcls' as [j Hj].
        by apply (Hlast (S j) cls'); [lia | |].
      * rewrite (Hexposed i cls' Hi), Hlen; [do 2 f_equal; lia |].
        intros j cls'' Hij Hj. apply (Hlast (S j) cls''); [lia | done].
    + intros name Hname Hother. rewrite fmap_cons in Hother.
      apply not_elem_of_cons in Hother as [Hne Hother].
      rewrite Hframe by done. unfold self1.
      by rewrite lookup_insert_ne, lookup_insert_ne.
Qed.

Lemma init_resters_last_class_wins_witness :
  let classes := [mkResterClass "a/b" []; mkResterClass "thermo" [];
                  mkResterClass "a_b" []] in
  let self : MPRester :=
    <["_all_resters" := VList []]> (<["session" := VSession 0]> ∅) in
  exists self' : MPRester,
    init_resters None "e" true self classes fresh =
      (inr self',
       mkWorld 0 []
         ([] ++ ((fun cls => mkRester cls None "e" true (VSession 0)) <$> classes))
         []) /\
    self' !! "_all_resters" =
      Some (VList ([] ++ (VRester <$> seq 0 (length classes)))) /\
    (forall i cls, classes !! i = Some cls ->
       (forall j cls', i < j -> classes !! j = Some cls' ->
          attribute_name cls' <> attribute_name cls) ->
       self' !! attribute_name cls = Some (VRester (0 + i))) /\
    (forall name, name <> "_all_resters" ->
       name ∉ attribute_name <$> classes -> self' !! name = self !! name).
Proof.
  apply (init_resters_last_class_wins None "e" true 0
           [mkResterClass "a/b" []; mkResterClass "thermo" [];
            mkResterClass "a_b" []]
           (<["_all_resters" := VList []]> (<["session" := VSession 0]> ∅))
           [] fresh).
  - reflexivity.
  - reflexivity.
  - repeat constructor; discriminate.
Defined.

(** X3. The attribute name derived from a suffix has the length of the
    suffix and no ["/"] in it; a suffix without ["/"] is its own attribute
    name. *)
Theorem attribute_name_has_no_slash (cls : ResterClass) :
  String.length (attribute_name cls) = String.length (suffix cls) /\
  ("/"%char ∉ String.list_ascii_of_string (attribute_name cls)) /\
  (("/"%char ∉ String.list_ascii_of_string (suffix cls)) ->
   attribute_name cls = suffix cls).
Proof.
  unfold attribute_name. induction (suffix cls) as [|c s (IHlen & IHnone & IHsame)].
  - split; [done |]. split; [apply not_elem_of_nil | done].
  - cbn [replace String.length String.list_ascii_of_string]. split; [| split].
    + by rewrite IHlen.
    + apply not_elem_of_cons. split; [| done]. by case_bool_decide.
    + intros Hnone. apply not_elem_of_cons in Hnone as [Hc Hnone].
      rewrite bool_decide_eq_false_2 by done. by rewrite IHsame.
Qed.

Lemma attribute_name_has_no_slash_witness :
  attribute_name (mkResterClass "surface_properties" []) = "surface_properties".
Proof.
  apply (proj2 (proj2 (attribute_name_has_no_slash
                         (mkResterClass "surface_properties" [])))).
  apply (bool_decide_unpack _). by vm_compute.
Defined.

(** *** Surface data and structures *)

Lemma first_surface_app eq_indices earlier surface later :
  Forall (fun s => miller_index s ∉ eq_indices) earlier ->
  miller_index surface ∈ eq_indices ->
  first_surface eq_indices (earlier ++ surface :: later) = Some (SurfaceDict surface).
Proof.
  intros Hearlier Hsurface.
  induction Hearlier as [|s earlier Hs _ IH].
  - cbn [app first_surface]. by rewrite bool_decide_eq_true_2.
  - cbn [app first_surface]. by rewrite bool_decide_eq_false_2.
Qed.

(** X4. For a non-empty [miller_index], [get_surface_data] returns the dict
    of the first surface of the document, in the order of the document,
    whose miller index is among the symmetric equivalents of the requested
    one; later matching surfaces are not looked at. *)
Theorem get_surface_data_first_match (C : Collaborators)
    (material_id : string) (h : Z) (hkl : list Z)
    (w : World) doc w1 structure w2 eq_indices w3 earlier surface later :
  surface_properties_get_document_by_id C material_id w = (inr doc, w1) ->
  get_structure_by_material_id (C:=C) material_id true false w1
    = (inr structure, w2) ->
  get_symmetrically_equivalent_miller_indices C structure (h :: hkl) w2
    = (inr eq_indices, w3) ->
  surfaces doc = earlier ++ surface :: later ->
  Forall (fun s => miller_index s ∉ eq_indices) earlier ->
  miller_index surface ∈ eq_indices ->
  get_surface_data (C:=C) material_id (Some (h :: hkl)) w
    = (inr (Some (SurfaceDict surface)), w3).
Proof.
  intros Hdoc Hstructure Heq Hsurfaces Hearlier Hsurface.
  unfold get_surface_data, bind. rewrite Hdoc, Hstructure, Heq, Hsurfaces.
  unfold ret. by rewrite first_surface_app.
Qed.

Lemma get_surface_data_first_match_witness :
  get_surface_data (C:=lab) "mp-149" (Some [-1; 0; 0]%Z) fresh
    = (inr (Some (SurfaceDict (mkSurfaceEntry [1; 0; 0]%Z true))), fresh).
Proof.
  apply (get_surface_data_first_match lab "mp-149" (-1)%Z [0; 0]%Z
           fresh silicon fresh (OneStructure tt) fresh
           [[-1; 0; 0]; [1; 0; 0]]%Z fresh
           [mkSurfaceEntry [1; 1; 1]%Z false] (mkSurfaceEntry [1; 0; 0]%Z true) []).
  - reflexivity.
  - reflexivity.
  - reflexivity.
  - reflexivity.
  - apply (bool_decide_unpack _). by vm_compute.
  - apply (bool_decide_unpack _). by vm_compute.
Defined.

(** X5. [get_surface_data] asks for the structure of the material before
    it looks at [miller_index]: when that request fails, the method fails
    with the same exception whatever [miller_index] is, also when none is
    supplied and the document at hand is all that is needed. *)
Theorem get_surface_data_needs_the_structure (C : Collaborators)
    (material_id : string) (miller_index : option (list Z))
    (w : World) doc w1 e w2 :
  surface_properties_get_document_by_id C material_id w = (inr doc, w1) ->
  materials_get_structure_by_material_id C material_id true w1 = (inl e, w2) ->
  get_surface_data (C:=C) material_id miller_index w = (inl e, w2).
Proof.
  intros Hdoc Hstructure.
  unfold get_surface_data, get_structure_by_material_id, bind.
  by rewrite Hdoc, Hstructure.
Qed.

Lemma get_surface_data_needs_the_structure_witness :
  get_surface_data (C:=lab2) "mp-149" None fresh
    = (inl (RestError "No result for record"), fresh).
Proof.
  apply (get_surface_data_needs_the_structure lab2 "mp-149" None
           fresh silicon fresh (RestError "No result for record") fresh).
  - reflexivity.
  - reflexivity.
Defined.

Lemma conventional_all_converted (C : Collaborators)
    (l : list (Structure C)) w l' w' :
  converted l w l' w' ->
  conventional_all l w = (inr l', w') /\ length l' = length l.
Proof.
  induction 1 as [w | s l w s' w1 l' w' Hs _ [IH IHlen]]; [done |].
  cbn [conventional_all]. unfold bind. rewrite Hs, IH.
  split; [done |]. cbn. by rewrite IHlen.
Qed.

(** X6. With [conventional_unit_cell=True], [get_structure_by_material_id]
    hands back unchanged what is falsy ([None], an empty list), in the
    world the request left, whatever the symmetry analysis would do: the
    analysis is not called. For the initial structures ([final=False]),
    when the analysis gives a conventional standard structure for each of
    them, one after the other, these are returned in the same order. *)
Theorem get_structure_by_material_id_conventional (C : Collaborators)
    (material_id : string) (final : bool) (w : World) data w1 :
  materials_get_structure_by_material_id C material_id final w = (inr data, w1) ->
  (structure_truthy data = false ->
   get_structure_by_material_id (C:=C) material_id final true w = (inr data, w1)) /\
  (forall l l' w2, final = false -> data = Structures l ->
   converted l w1 l' w2 ->
   get_structure_by_material_id (C:=C) material_id final true w
     = (inr (Structures l'), w2) /\
   length l' = length l).
Proof.
  intros Hfetch. unfold get_structure_by_material_id, bind.
  rewrite Hfetch. split.
  - by intros ->.
  - intros l l' w2 -> -> Hrun. cbn [andb structure_truthy].
    destruct (conventional_all_converted C l w1 l' w2 Hrun) as [Hall Hlen].
    split; [| done].
    destruct l as [|s l].
    + inversion Hrun; subst. done.
    + rewrite bool_decide_eq_false_2 by done. cbn [negb].
      unfold bind. by rewrite Hall.
Qed.

Lemma get_structure_by_material_id_conventional_witness :
  get_structure_by_material_id (C:=lab4) "mp-149" true true fresh
    = (inr NoStructure, fresh) /\
  get_structure_by_material_id (C:=lab4) "mp-149" false true fresh
    = (inr (Structures []), fresh) /\
  get_structure_by_material_id (C:=lab) "mp-149" false true fresh
    = (inr (Structures [tt]), fresh).
Proof.
  split; [| split].
  - apply (proj1 (get_structure_by_material_id_conventional lab4
                    "mp-149" true fresh NoStructure fresh eq_refl)).
    reflexivity.
  - apply (proj1 (get_structure_by_material_id_conventional lab4
                    "mp-149" false fresh (Structures []) fresh eq_refl)).
    reflexivity.
  - apply (proj1 (proj2 (get_structure_by_material_id_conventional lab
                           "mp-149" false fresh (Structures [tt]) fresh eq_refl)
                    [tt] [tt] fresh eq_refl eq_refl
                    (converted_cons (C:=lab) tt [] fresh tt fresh [] fresh
                       eq_refl (converted_nil (C:=lab) fresh)))).
Defined.

(** *** Lists of identifiers, structures and entries *)

(** X7. The list [get_materials_ids] returns depends only on which
    identifiers the search finds, and how often, not on the order in which
    the server lists the documents. The order of [MPID] is assumed to be a
    strict total order. *)
Theorem get_materials_ids_order_independent (C : Collaborators)
    (formula formula' : string) (w w' : World) docs docs' w1 w1' :
  (forall a b, mpid_lt C a b = true -> mpid_lt C b a = false) ->
  (forall a b c, before (mpid_lt C) a b -> before (mpid_lt C) b c ->
                 before (mpid_lt C) a c) ->
  (forall a b, before (mpid_lt C) a b -> before (mpid_lt C) b a -> a = b) ->
  materials_search_material_docs C formula false ["material_id"] w
    = (inr docs, w1) ->
  materials_search_material_docs C formula' false ["material_id"] w'
    = (inr docs', w1') ->
  map material_id docs ≡ₚ map material_id docs' ->
  (get_materials_ids (C:=C) formula w).1 = (get_materials_ids (C:=C) formula' w').1.
Proof.
  intros Hasym Htrans Hantisym Hsearch Hsearch' Hsame.
  unfold get_materials_ids, bind. rewrite Hsearch, Hsearch'. cbn [fst ret].
  f_equal.
  apply (StronglySorted_unique (before (mpid_lt C)) (AntiSymm0:=Hantisym)).
  - by apply sorted_sorted.
  - by apply sorted_sorted.
  - by rewrite !sorted_permutation.
Qed.

Lemma get_materials_ids_order_independent_witness :
  (get_materials_ids (C:=lab2) "Si" fresh).1
    = (get_materials_ids (C:=lab2) "Si (reversed)" fresh).1.
Proof.
  apply (get_materials_ids_order_independent lab2 "Si" "Si (reversed)" fresh fresh
           [mkMaterialsDoc 1014; mkMaterialsDoc 149; mkMaterialsDoc 165]
           [mkMaterialsDoc 165; mkMaterialsDoc 149; mkMaterialsDoc 1014]
           fresh fresh).
  - intros a b Hab. apply Nat.ltb_lt in Hab. apply Nat.ltb_ge. cbn in *. lia.
  - unfold before. intros a b c Hab Hbc.
    apply Nat.ltb_ge in Hab, Hbc. apply Nat.ltb_ge. cbn in *. lia.
  - unfold before. intros a b Hab Hba.
    apply Nat.ltb_ge in Hab, Hba. cbn in *. lia.
  - reflexivity.
  - reflexivity.
  - cbn [map material_id]. rewrite <- (reverse_Permutation [165; 149; 1014]).
    reflexivity.
Defined.

Lemma foldl_extend {A B} (g : B -> list A) (l : list B) (acc : list A) :
  foldl (fun acc x => acc ++ g x) acc l = acc ++ concat (map g l).
Proof.
  revert acc. induction l as [|x l IH]; intros acc.
  - cbn. by rewrite app_nil_r.
  - cbn [foldl map concat]. by rewrite IH, app_assoc.
Qed.

(** X8. Without [final], [get_structures] returns the initial structures
    of all the documents found: those of the first document first, each
    document's in their own order; a document without initial structures
    adds nothing. *)
Theorem get_structures_initial (C : Collaborators) (X : MoreCollaborators C)
    (chemsys_formula : string) (w : World) docs w1 :
  materials_search_structure_docs X chemsys_formula false ["initial_structures"] w
    = (inr docs, w1) ->
  get_structures X chemsys_formula false w
    = (inr (concat (map initial_structures docs)), w1) /\
  length (concat (map initial_structures docs))
    = sum_list (map (fun doc => length (initial_structures doc)) docs).
Proof.
  intros Hsearch. split.
  - unfold get_structures, bind. rewrite Hsearch. unfold ret.
    by rewrite foldl_extend.
  - clear. induction docs as [|doc docs IH]; [done |].
    cbn [map concat sum_list sum_list_with]. rewrite length_app.
    by rewrite IH.
Qed.

Lemma get_structures_initial_witness :
  get_structures more_lab "Si" false fresh = (inr [tt; tt; tt], fresh).
Proof.
  apply (proj1 (get_structures_initial lab more_lab "Si" fresh
                  [mkStructureDoc tt [tt; tt]; mkStructureDoc tt [];
                   mkStructureDoc tt [tt]] fresh eq_refl)).
Defined.

(** X9. [get_entries] does not sort anything itself: with
    [sort_by_e_above_hull] it asks the thermo rester to sort by
    [energy_above_hull], ascending, and otherwise for no order; in both
    cases it returns the entries of the documents in the order of the
    answer, each document's in the order of its [entries]. *)
Theorem get_entries_keeps_the_order_of_the_answer (C : Collaborators)
    (X : MoreCollaborators C) (chemsys_formula : string)
    (sort_by_e_above_hull : bool) (w : World) docs w1 :
  thermo_search_thermo_docs X chemsys_formula false ["entries"]
    (if sort_by_e_above_hull then Some "energy_above_hull" else None)
    (if sort_by_e_above_hull then Some true else None) w
    = (inr docs, w1) ->
  get_entries X chemsys_formula sort_by_e_above_hull w
    = (inr (concat (map (fun doc => (entries doc).*2) docs)), w1).
Proof.
  intros Hsearch. unfold get_entries, bind.
  destruct sort_by_e_above_hull; rewrite Hsearch; unfold ret;
    by rewrite foldl_extend.
Qed.

Lemma get_entries_keeps_the_order_of_the_answer_witness :
  get_entries more_lab "Si" true fresh = (inr [1; 2; 3], fresh).
Proof.
  apply (get_entries_keeps_the_order_of_the_answer lab more_lab "Si" true fresh
           [mkThermoDoc [("GGA", 1); ("GGA+U", 2)]; mkThermoDoc [("GGA", 3)]]
           fresh).
  reflexivity.
Defined.

(** *** The energies handed to the Wulff construction *)

Lemma filter_none {A} (P : A -> Prop) `{forall x, Decision (P x)} (l : list A) :
  Forall (fun x => ~ P x) l -> filter P l = [].
Proof.
  induction 1 as [|x l Hx _ IH]; [done |].
  by rewrite filter_cons_False.
Qed.

Section MillerEnergyMap.
Context {E : Type}.
Implicit Types (d : list (list Z * E)) (rows : list (SurfaceEntry * E)).

Lemma setitem_keys d key v :
  (setitem d key v).*1 = if decide (key ∈ d.*1) then d.*1 else d.*1 ++ [key].
Proof.
  induction d as [|[key' v'] d IH].
  - cbn. by rewrite decide_False by apply not_elem_of_nil.
  - cbn [setitem]. case_bool_decide as Hkey.
    + subst key'. cbn [fmap list_fmap fst].
      rewrite decide_True by apply list_elem_of_here. done.
    + cbn [fmap list_fmap fst] in *. rewrite IH.
      destruct (decide (key ∈ d.*1)) as [Hin | Hout].
      * by rewrite decide_True by by apply list_elem_of_further.
      * rewrite decide_False; [done |].
        rewrite not_elem_of_cons. by split.
Qed.

Lemma elem_of_setitem d key v key' v' :
  NoDup d.*1 ->
  (key', v') ∈ setitem d key v <->
  (key' = key /\ v' = v) \/ (key' <> key /\ (key', v') ∈ d).
Proof.
  induction d as [|[k0 v0] d IH]; intros Hkeys.
  - cbn [setitem]. rewrite list_elem_of_singleton. split.
    + intros [= -> ->]. by left.
    + intros [[-> ->] | [_ Hin]]; [done |]. by apply not_elem_of_nil in Hin.
  - cbn [fmap list_fmap fst] in Hkeys. apply NoDup_cons in Hkeys as [Hfresh Hkeys].
    cbn [setitem]. case_bool_decide as Hk0.
    + subst k0. rewrite !elem_of_cons. split.
      * intros [[= -> ->] | Hin]; [by left |]. right. split; [| by right].
        intros ->. apply Hfresh. apply list_elem_of_fmap. by exists (key, v').
      * intros [[-> ->] | [Hne [[= -> ->] | Hin]]]; [by left | done | by right].
    + rewrite !elem_of_cons, (IH Hkeys). split.
      * intros [[= -> ->] | [[-> ->] | [Hne Hin]]].
        -- right. split; [done | by left].
        -- by left.
        -- right. split; [done | by right].
      * intros [[-> ->] | [Hne [[= -> ->] | Hin]]].
        -- right. by left.
        -- by left.
        -- right. right. by split.
Qed.

Lemma miller_energy_map_snoc rows surface e :
  miller_energy_map (rows ++ [(surface, e)]) =
    let map := miller_energy_map rows in
    if negb (contains map (miller_index surface)) || is_reconstructed surface
    then setitem map (miller_index surface) e
    else map.
Proof. unfold miller_energy_map. by rewrite foldl_app. Qed.

(** What the loop keeps true: the keys are distinct, they are the miller
    indices met so far, and the energy under a key is that of the last
    reconstructed surface with this index or, without one, of the first
    surface with it. *)
Lemma miller_energy_map_invariant rows :
  NoDup (miller_energy_map rows).*1 /\
  (forall key, key ∈ (miller_energy_map rows).*1 <->
               exists row, row ∈ rows /\ miller_index row.1 = key) /\
  (forall key e, (key, e) ∈ miller_energy_map rows ->
     match last (filter (fun row => miller_index row.1 = key /\
                                    is_reconstructed row.1 = true) rows) with
     | Some row => e = row.2
     | None =>
         exists row,
           head (filter (fun row => miller_index row.1 = key) rows) = Some row /\
           e = row.2
     end).
Proof.
  induction rows as [|[surface e0] rows (IHkeys & IHdom & IHval)] using rev_ind.
  - split; [constructor |]. split.
    + intros key. split.
      * intros Hin. by apply not_elem_of_nil in Hin.
      * intros (row & Hin & _). by apply not_elem_of_nil in Hin.
    + intros key e Hin. by apply not_elem_of_nil in Hin.
  - rewrite miller_energy_map_snoc. cbn zeta.
    set (map := miller_energy_map rows) in *.
    set (k0 := miller_index surface).
    assert (forall key, (exists row, row ∈ rows ++ [(surface, e0)] /\
                                     miller_index row.1 = key) <->
                        key ∈ map.*1 \/ key = k0) as Hrows.
    { intros key. rewrite IHdom. split.
      - intros (row & Hin & Hkey). apply elem_of_app in Hin as [Hin | Hin].
        + left. by exists row.
        + apply list_elem_of_singleton in Hin as ->. by right.
      - intros [(row & Hin & Hkey) | ->].
        + exists row. split; [| done]. apply elem_of_app. by left.
        + exists (surface, e0). split; [| done]. apply elem_of_app. right.
          by apply list_elem_of_singleton. }
    destruct (negb (contains map k0) || is_reconstructed surface) eqn:Hset.
    + split; [| split].
      * rewrite setitem_keys. case_decide as Hin; [done |].
        apply NoDup_app. split; [done |]. split; [| apply NoDup_singleton].
        intros key Hkey Hkey0. apply list_elem_of_singleton in Hkey0 as ->. done.
      * intros key. rewrite Hrows, setitem_keys.
        case_decide as Hin.
        -- split; [by left |]. by intros [? | ->].
        -- rewrite elem_of_app, list_elem_of_singleton. done.
      * intros key e Hin. apply elem_of_setitem in Hin; [| done].
        rewrite !filter_app, !filter_cons, !filter_nil. cbn [fst].
        fold k0. destruct Hin as [[-> ->] | [Hne Hin]].
        -- destruct (is_reconstructed surface) eqn:Hrec.
           ++ rewrite decide_True by done. by rewrite last_snoc.
           ++ rewrite (decide_False (P := _ /\ _)) by (intros [_ ?]; done).
              rewrite decide_True by done. rewrite app_nil_r.
              rewrite orb_false_r in Hset. apply negb_true_iff in Hset.
              unfold contains in Hset. apply bool_decide_eq_false in Hset.
              assert (filter (fun row => miller_index row.1 = k0) rows = [])
                as Hnone.
              { apply filter_none, Forall_forall. intros row Hrow Hkey.
                apply Hset, IHdom. by exists row. }
              assert (filter (fun row => miller_index row.1 = k0 /\
                                         is_reconstructed row.1 = true) rows = [])
                as Hnone'.
              { apply filter_none, Forall_forall.
                intros row Hrow [Hkey _].
                apply Hset, IHdom. by exists row. }
              rewrite Hnone, Hnone'. cbn. by exists (surface, e0).
        -- rewrite (decide_False (P := _ /\ _)) by (intros [? _]; done).
           rewrite (decide_False (P := k0 = key)) by done.
           rewrite !app_nil_r. by apply IHval.
    + apply orb_false_iff in Hset as [Hin Hrec].
      apply negb_false_iff in Hin. unfold contains in Hin.
      apply bool_decide_eq_true in Hin.
      split; [done |]. split.
      * intros key. rewrite Hrows. split; [by left |]. by intros [? | ->].
      * intros key e Hkey. specialize (IHval key e Hkey).
        rewrite !filter_app, !filter_cons, !filter_nil. cbn [fst]. fold k0.
        rewrite (decide_False (P := _ /\ _)) by (intros [_ ?]; congruence).
        rewrite app_nil_r.
        destruct (last (filter _ rows)) as [row |]; [done |].
        destruct IHval as (row & Hhead & ->). exists row. split; [| done].
        rewrite head_app, Hhead. done.
Qed.

End MillerEnergyMap.

(** X10. The dict [get_wulff_shape] builds has one key for every miller
    index that occurs among the surfaces and no key twice, so the miller
    indices and the energies handed to [WulffShape] pair up one to one. *)
Theorem miller_energy_map_keys {E} (rows : list (SurfaceEntry * E)) :
  NoDup (miller_energy_map rows).*1 /\
  (forall key, key ∈ (miller_energy_map rows).*1 <->
               exists row, row ∈ rows /\ miller_index row.1 = key) /\
  length (miller_energy_map rows).*1 = length (miller_energy_map rows).*2.
Proof.
  destruct (miller_energy_map_invariant rows) as (Hkeys & Hdom & _).
  split; [done |]. split; [done |]. by rewrite !length_fmap.
Qed.

(** X11. Reconstructed surfaces are preferred: the energy stored for a
    miller index is that of the last reconstructed surface with this index
    and, when no surface with this index is reconstructed, that of the
    first surface with it. *)
Theorem miller_energy_map_prefers_reconstructed {E}
    (rows : list (SurfaceEntry * E)) (key : list Z) (e : E) :
  (key, e) ∈ miller_energy_map rows ->
  match last (filter (fun row => miller_index row.1 = key /\
                                 is_reconstructed row.1 = true) rows) with
  | Some row => e = row.2
  | None =>
      exists row,
        head (filter (fun row => miller_index row.1 = key) rows) = Some row /\
        e = row.2
  end.
Proof.
  destruct (miller_energy_map_invariant rows) as (_ & _ & Hval). apply Hval.
Qed.

Lemma miller_energy_map_prefers_reconstructed_witness :
  let rows := [(mkSurfaceEntry [1; 0; 0]%Z false, 1);
               (mkSurfaceEntry [1; 1; 1]%Z false, 2);
               (mkSurfaceEntry [1; 0; 0]%Z true, 3);
               (mkSurfaceEntry [1; 0; 0]%Z false, 4)] in
  miller_energy_map rows = [([1; 0; 0]%Z, 3); ([1; 1; 1]%Z, 2)] /\
  match last (filter (fun row => miller_index row.1 = [1; 0; 0]%Z /\
                                 is_reconstructed row.1 = true) rows) with
  | Some row => 3 = row.2
  | None =>
      exists row,
        head (filter (fun row => miller_index row.1 = [1; 0; 0]%Z) rows)
          = Some row /\
        3 = row.2
  end.
Proof.
  split; [reflexivity |].
  apply (miller_energy_map_prefers_reconstructed
           [(mkSurfaceEntry [1; 0; 0]%Z false, 1);
            (mkSurfaceEntry [1; 1; 1]%Z false, 2);
            (mkSurfaceEntry [1; 0; 0]%Z true, 3);
            (mkSurfaceEntry [1; 0; 0]%Z false, 4)]
           [1; 0; 0]%Z 3).
  apply (bool_decide_unpack _). by vm_compute.
Defined.

(** X12. For a material whose surface document lists no surface,
    [get_wulff_shape] raises [ValueError]: there is nothing to unpack into
    miller indices and energies. It does so after all its requests,
    including the two for the structure. *)
Theorem get_wulff_shape_without_surfaces (C : Collaborators)
    (X : MoreCollaborators C) (material_id : string)
    (w : World) s w1 doc w2 again w3 s' w4 :
  materials_get_structure_by_material_id C material_id true w
    = (inr (OneStructure s), w1) ->
  surface_properties_get_document_by_id C material_id w1 = (inr doc, w2) ->
  materials_get_structure_by_material_id C material_id true w2
    = (inr again, w3) ->
  get_conventional_standard_structure C s w3 = (inr s', w4) ->
  surfaces doc = [] ->
  get_wulff_shape X material_id w =
    (inl (ValueError "not enough values to unpack (expected 2, got 0)"), w4).
Proof.
  intros Hstructure Hdoc Hagain Hconv Hnone.
  unfold get_wulff_shape, get_surface_data, get_structure_by_material_id, bind.
  rewrite Hstructure. cbn [andb]. unfold ret at 1.
  rewrite Hdoc, Hagain. unfold ret at 1 2 3. rewrite Hconv, Hnone.
  done.
Qed.

Lemma get_wulff_shape_without_surfaces_witness :
  get_wulff_shape more_lab3 "mp-611517" fresh =
    (inl (ValueError "not enough values to unpack (expected 2, got 0)"), fresh).
Proof.
  apply (get_wulff_shape_without_surfaces lab3 more_lab3 "mp-611517"
           fresh tt fresh (mkSurfacePropDoc "Xe" []) fresh (OneStructure tt)
           fresh tt fresh).
  - reflexivity.
  - reflexivity.
  - reflexivity.
  - reflexivity.
  - reflexivity.
Defined.

(** *** Task types *)

(** X13. A task type is found again from its value, and a value names at
    most one task type: no two members of [TaskType] share a value, which
    is what [@unique] demands. *)
Theorem task_type_value_round_trip :
  (forall t, task_type_of_value (task_type_value t) = inr t) /\
  (forall v t, task_type_of_value v = inr t -> task_type_value t = v) /\
  (forall t t', task_type_value t = task_type_value t' -> t = t').
Proof.
  assert (forall t, task_type_of_value (task_type_value t) = inr t) as Hfound.
  { intros t. by destruct t; vm_compute. }
  split; [done |]. split.
  - intros v t. unfold task_type_of_value.
    destruct (list_find _ task_types) as [[i t'] |] eqn:Hfind; [| done].
    intros [= <-]. by apply list_find_Some in Hfind as (_ & Hvalue & _).
  - intros t t' Hvalue. pose proof (Hfound t) as Ht.
    rewrite Hvalue, Hfound in Ht. by injection Ht.
Qed.

Lemma task_type_value_round_trip_witness :
  task_type_value GGA_STATIC = "GGA Static" /\
  (task_type_value GGA_STATIC = task_type_value GGA_STATIC ->
   GGA_STATIC = GGA_STATIC).
Proof.
  split.
  - apply (proj1 (proj2 task_type_value_round_trip) "GGA Static" GGA_STATIC).
    reflexivity.
  - apply (proj2 (proj2 task_type_value_round_trip) GGA_STATIC GGA_STATIC).
Defined.

End FacadeFacts.
